(** * Cohort CAC / LTV pipeline ([src/cohort_cli.py])

    A shallow embedding of the analytical core of the cohort tool:
    [load_inputs], [build_mart_and_cohorts], [ltv_tables] and the summary
    computation of [export_excel], together with the properties of the
    pipeline that its specification states.

    Modelling conventions.
    - A pandas [DataFrame] or a DuckDB table is a list of records, in row
      order.  A pivoted frame is a [Grid]: a list of column labels and a
      list of labelled rows.
    - A [float64] cell is [NaN], a signed infinity or a finite value.
      Finite values are exact rationals ([Qc]): rounding and overflow of
      binary64 arithmetic and the sign of zero are not represented.
    - Column types are not represented: every numeric column is taken
      as float64 (an all-integer spend column is int64 in pandas and
      wraps at 2^63; a column read from a file without rows has no
      numeric type at all).
    - A [customer_id] is always present: an order whose customer_id
      cell is blank (NULL in DuckDB) is not represented.
    - Python exceptions are the [Raise] results of [result].
    - The pandas and DuckDB primitives the source calls ([merge], [pivot],
      [fillna], [cumsum], [groupby().sum()], [GROUP BY], [MIN],
      [date_trunc], [date_diff], [strftime]) are embedded by their
      documented behaviour, one definition each, under the name the
      source uses. *)

From Stdlib Require Import ZArith QArith Qcanon List String Ascii Bool Lia.
From Stdlib Require Import Sorted OrderedTypeEx.
Import ListNotations.

Open Scope string_scope.
Open Scope Z_scope.

(* ================================================================== *)
(** ** Floating-point cells *)

Inductive float64 : Type :=
| NaN
| Inf (neg : bool)
| Fin (q : Qc).

Definition Qc_is_zero (q : Qc) : bool := Qeq_bool q 0.
Definition Qc_is_neg (q : Qc) : bool := negb (Qle_bool 0 q).

Definition fzero : float64 := Fin (Q2Qc 0).
Definition of_int (z : Z) : float64 := Fin (Q2Qc (inject_Z z)).

Definition isna (x : float64) : bool :=
  match x with NaN => true | _ => false end.

(** [x + y] on float64. *)
Definition fadd (x y : float64) : float64 :=
  match x, y with
  | NaN, _ | _, NaN => NaN
  | Inf s, Inf t => if Bool.eqb s t then Inf s else NaN
  | Inf s, Fin _ => Inf s
  | Fin _, Inf t => Inf t
  | Fin a, Fin b => Fin (a + b)%Qc
  end.

(** [x / y] on float64 as numpy computes it: no exception is raised, a
    division by zero gives an infinity, or [NaN] for [0 / 0]. *)
Definition fdiv (x y : float64) : float64 :=
  match x, y with
  | NaN, _ | _, NaN => NaN
  | Inf _, Inf _ => NaN
  | Inf s, Fin b => Inf (xorb s (Qc_is_neg b))
  | Fin _, Inf _ => fzero
  | Fin a, Fin b =>
      if Qc_is_zero b
      then (if Qc_is_zero a then NaN else Inf (Qc_is_neg a))
      else Fin (a / b)%Qc
  end.

(** [x <= y] on float64; every comparison with [NaN] is false. *)
Definition fle (x y : float64) : Prop :=
  match x, y with
  | NaN, _ | _, NaN => False
  | Inf true, _ => True
  | _, Inf false => True
  | Inf false, _ => False
  | _, Inf true => False
  | Fin a, Fin b => (a <= b)%Qc
  end.

(** [x == y] on float64 ([NaN] differs from everything). *)
Definition feqb (x y : float64) : bool :=
  match x, y with
  | Inf s, Inf t => Bool.eqb s t
  | Fin a, Fin b => Qeq_bool a b
  | _, _ => false
  end.

(** [Series.replace(0, np.nan)], one cell. *)
Definition replace_0_nan (x : float64) : float64 :=
  match x with
  | Fin q => if Qc_is_zero q then NaN else x
  | _ => x
  end.

(** [fillna(0)], one cell. *)
Definition fillna_0 (x : float64) : float64 :=
  if isna x then fzero else x.

(** Left-to-right sum, as an accumulation loop computes it. *)
Definition fsum (l : list float64) : float64 := fold_left fadd l fzero.

(** [cumsum] along one row.  pandas masks the [NaN] cells: they stay
    [NaN] in the output and do not enter the running total. *)
Fixpoint cumsum_from (acc : float64) (l : list float64) : list float64 :=
  match l with
  | [] => []
  | x :: l' =>
      if isna x then NaN :: cumsum_from acc l'
      else let acc' := fadd acc x in acc' :: cumsum_from acc' l'
  end.

Definition cumsum_row (l : list float64) : list float64 :=
  cumsum_from fzero l.

(* ================================================================== *)
(** ** Exceptions *)

Inductive exn : Type := ValueError | KeyError | AttributeError.

Inductive result (A : Type) : Type :=
| Ok (a : A)
| Raise (e : exn).
Arguments Ok {A} a.
Arguments Raise {A} e.

(* ================================================================== *)
(** ** Sorted, duplicate-free key lists

    [pivot], [groupby] and [GROUP BY ... ORDER BY] all produce one entry
    per distinct key, in ascending key order. *)

Section SortedKeys.
Context {K : Type} (cmp : K -> K -> comparison).

Fixpoint insert_key (x : K) (l : list K) : list K :=
  match l with
  | [] => [x]
  | y :: l' =>
      match cmp x y with
      | Lt => x :: l
      | Eq => l
      | Gt => y :: insert_key x l'
      end
  end.

Definition sort_unique (l : list K) : list K :=
  fold_right insert_key [] l.

(** Stable insertion sort of labelled rows by label ([sort_index]). *)
Fixpoint insert_row {V : Type} (r : K * V) (l : list (K * V)) : list (K * V) :=
  match l with
  | [] => [r]
  | r' :: l' =>
      match cmp (fst r) (fst r') with
      | Gt => r' :: insert_row r l'
      | _ => r :: l
      end
  end.

Definition sort_rows {V : Type} (l : list (K * V)) : list (K * V) :=
  fold_right insert_row [] l.

(** The strict order of the comparison. *)
Definition cmp_lt (a b : K) : Prop := cmp a b = Lt.
End SortedKeys.

Fixpoint duplicated {K : Type} (eqb : K -> K -> bool) (l : list K) : bool :=
  match l with
  | [] => false
  | x :: l' => existsb (eqb x) l' || duplicated eqb l'
  end.

Fixpoint index_of {K : Type} (eqb : K -> K -> bool) (x : K) (l : list K) : option nat :=
  match l with
  | [] => None
  | y :: l' =>
      if eqb x y then Some O
      else match index_of eqb x l' with
           | Some i => Some (S i)
           | None => None
           end
  end.

(* ================================================================== *)
(** ** Frames of [ltv_tables] *)

(** A row of [cohort_rev]. *)
Record CohortRevenue : Type := {
  cr_cohort_month : string;
  cr_months_since_cohort : Z;
  cr_revenue : float64
}.

(** A row of [acq_counts]. *)
Record CohortSize : Type := {
  cs_cohort_month : string;
  cs_new_customers : Z
}.

(** A row of [cohort_rev.merge(acq_counts, on="cohort_month", how="left")].
    The [new_customers] column is float64 after the join: an unmatched
    left row holds [NaN] there. *)
Record LtvRow : Type := {
  lr_cohort_month : string;
  lr_months_since_cohort : Z;
  lr_revenue : float64;
  lr_new_customers : float64
}.

(** A pivoted frame: column labels and labelled rows. *)
Record Grid : Type := {
  columns : list Z;
  rows : list (string * list float64)
}.

Definition grid_index (g : Grid) : list string := map fst (rows g).

(** [g.loc[c, k]]. *)
Definition loc (g : Grid) (c : string) (k : Z) : option float64 :=
  match find (fun r => String.eqb (fst r) c) (rows g) with
  | None => None
  | Some r =>
      match index_of Z.eqb k (columns g) with
      | None => None
      | Some j => nth_error (snd r) j
      end
  end.

(** Left join of [cohort_rev] with [acq_counts] on [cohort_month]: left
    order is kept, every matching right row gives one output row, and a
    left row without a match gives one row with [NaN]. *)
Definition merge_left_one (acq_counts : list CohortSize) (r : CohortRevenue)
  : list LtvRow :=
  let mk n := {| lr_cohort_month := cr_cohort_month r;
                 lr_months_since_cohort := cr_months_since_cohort r;
                 lr_revenue := cr_revenue r;
                 lr_new_customers := n |} in
  match filter (fun a => String.eqb (cs_cohort_month a) (cr_cohort_month r))
               acq_counts with
  | [] => [mk NaN]
  | ms => map (fun a => mk (of_int (cs_new_customers a))) ms
  end.

Definition merge_left (cohort_rev : list CohortRevenue)
           (acq_counts : list CohortSize) : list LtvRow :=
  flat_map (merge_left_one acq_counts) cohort_rev.

(** [ltv["revenue"] / ltv["new_customers"].replace(0, np.nan)]. *)
Definition ltv_value (r : LtvRow) : float64 :=
  fdiv (lr_revenue r) (replace_0_nan (lr_new_customers r)).

Definition key_eqb (a b : string * Z) : bool :=
  String.eqb (fst a) (fst b) && Z.eqb (snd a) (snd b).

Definition lr_key (r : LtvRow) : string * Z :=
  (lr_cohort_month r, lr_months_since_cohort r).

(** The cell of the pivot at (c, k): the value of the row with that key,
    [NaN] when there is none. *)
Definition pivot_cell (values : LtvRow -> float64) (l : list LtvRow)
           (c : string) (k : Z) : float64 :=
  match find (fun r => key_eqb (lr_key r) (c, k)) l with
  | Some r => values r
  | None => NaN
  end.

(** [DataFrame.pivot(index="cohort_month", columns="months_since_cohort",
    values=...)]: raises [ValueError] on a repeated (index, column) pair;
    row and column labels come out sorted and distinct. *)
Definition pivot (values : LtvRow -> float64) (l : list LtvRow) : result Grid :=
  if duplicated key_eqb (map lr_key l) then Raise ValueError
  else
    let cols := sort_unique Z.compare (map lr_months_since_cohort l) in
    let idx := sort_unique String.compare (map lr_cohort_month l) in
    Ok {| columns := cols;
          rows := map (fun c => (c, map (pivot_cell values l c) cols)) idx |}.

Definition fillna (g : Grid) : Grid :=
  {| columns := columns g;
     rows := map (fun r => (fst r, map fillna_0 (snd r))) (rows g) |}.

Definition sort_index (g : Grid) : Grid :=
  {| columns := columns g; rows := sort_rows String.compare (rows g) |}.

(** [DataFrame.cumsum(axis=1)]. *)
Definition cumsum (g : Grid) : Grid :=
  {| columns := columns g;
     rows := map (fun r => (fst r, cumsum_row (snd r))) (rows g) |}.

(** Lines 96 to 98: the dense per-customer grid [ltv_pivot]. *)
Definition ltv_pivot (cohort_rev : list CohortRevenue)
           (acq_counts : list CohortSize) : result Grid :=
  let ltv := merge_left cohort_rev acq_counts in
  match pivot ltv_value ltv with
  | Raise e => Raise e
  | Ok p => Ok (sort_index (fillna p))
  end.

Definition ltv_tables (cohort_rev : list CohortRevenue)
           (acq_counts : list CohortSize) : result Grid :=
  match ltv_pivot cohort_rev acq_counts with
  | Raise e => Raise e
  | Ok p => let ltv_cum := cumsum p in Ok ltv_cum
  end.

Definition cr_key (r : CohortRevenue) : string * Z :=
  (cr_cohort_month r, cr_months_since_cohort r).

(** [g.loc[c, k]] of a cell that is known to exist. *)
Definition value_at (g : Grid) (c : string) (k : Z) : float64 :=
  match loc g c k with
  | Some x => x
  | None => NaN
  end.

(** The inputs of [tests/test_ltv.py]. *)
Definition test_cohort_rev : list CohortRevenue :=
  [ {| cr_cohort_month := "2023-01"; cr_months_since_cohort := 0;
       cr_revenue := of_int 100 |};
    {| cr_cohort_month := "2023-01"; cr_months_since_cohort := 1;
       cr_revenue := of_int 50 |} ].

Definition test_acq : list CohortSize :=
  [ {| cs_cohort_month := "2023-01"; cs_new_customers := 10 |} ].

(** [ltv_cum.loc[c, k] == v] of a frame that was returned. *)
Definition loc_is (r : result Grid) (c : string) (k : Z) (v : float64) : bool :=
  match r with
  | Ok g => match loc g c k with
            | Some x => feqb x v
            | None => false
            end
  | Raise _ => false
  end.


(* ================================================================== *)
(** ** Calendar dates and the DuckDB date functions *)

(** A parsed [order_date] (the time of day plays no part in the
    pipeline). *)
Record date : Type := { year : Z; month : Z; day : Z }.

(** A date that a parser can produce: month 1 to 12, day 1 to 31. *)
Definition valid_date (d : date) : bool :=
  (1 <=? month d) && (month d <=? 12) && (1 <=? day d) && (day d <=? 31).

Definition date_compare (a b : date) : comparison :=
  match Z.compare (year a) (year b) with
  | Eq => match Z.compare (month a) (month b) with
          | Eq => Z.compare (day a) (day b)
          | c => c
          end
  | c => c
  end.

Definition date_leb (a b : date) : bool :=
  match date_compare a b with Gt => false | _ => true end.

Definition date_min (a b : date) : date := if date_leb a b then a else b.

(** [date_trunc('month', d)]. *)
Definition date_trunc_month (d : date) : date :=
  {| year := year d; month := month d; day := 1 |}.

(** [date_diff('month', a, b)]: the number of month boundaries crossed
    from [a] to [b]. *)
Definition date_diff_month (a b : date) : Z :=
  (year b - year a) * 12 + (month b - month a).

(** The same day one calendar month later (the day is kept as it is;
    the pipeline applies this to first days of months only). *)
Definition next_month (d : date) : date :=
  if month d =? 12
  then {| year := year d + 1; month := 1; day := day d |}
  else {| year := year d; month := month d + 1; day := day d |}.

Definition digit (n : Z) : ascii := ascii_of_nat (48 + Z.to_nat (n mod 10)).

(** [strftime(d, '%Y-%m')], and [dt.to_period("M").astype(str)] alike:
    a four-digit year, a dash, a two-digit month (years 0 to 9999; pandas
    timestamps lie between 1677 and 2262). *)
Definition strftime_Y_m (d : date) : string :=
  String (digit (year d / 1000)) (String (digit (year d / 100))
  (String (digit (year d / 10)) (String (digit (year d))
  (String "-"%char
  (String (digit (month d / 10)) (String (digit (month d)) EmptyString)))))).

(* ================================================================== *)
(** ** [load_inputs] *)

(** A cell of a column as [pd.read_csv] infers it without [parse_dates]:
    text stays a Python [str], a cell of an all-integer column is an
    int, a cell of a numeric column with a decimal point is a float,
    and an empty cell is missing.  A float cell is given by the text
    that Python prints for it (its [repr], the shortest decimal that
    reads back as the same binary64 value: the CSV text 2023.10 is the
    float whose text is 2023.1).  No column read this way holds a date
    object. *)
Inductive scalar : Type :=
| SStr (s : string)
| SInt (z : Z)
| SFloat (text : string)
| SMissing.

Definition is_digit (c : ascii) : bool :=
  let n := nat_of_ascii c in (48 <=? n)%nat && (n <=? 57)%nat.

Fixpoint digits_of_pos_fuel (fuel : nat) (z : Z) (acc : string) : string :=
  match fuel with
  | O => acc
  | S fuel' =>
      let acc' := String (digit z) acc in
      if (z / 10 =? 0)%Z then acc' else digits_of_pos_fuel fuel' (z / 10) acc'
  end.

(** [str(z)] of a Python int. *)
Definition str_of_int (z : Z) : string :=
  let n := Z.abs z in
  let ds := digits_of_pos_fuel (S (Z.to_nat (Z.log2 n))) n EmptyString in
  if (z <? 0)%Z then String "-"%char ds else ds.

(** [Series.astype(str)], one cell.  A missing cell is given the text
    "nan" that [str] prints for it; a pandas that keeps the cell missing
    gives it no text, and in both cases no month label. *)
Definition astype_str (v : scalar) : string :=
  match v with
  | SStr s => s
  | SInt z => str_of_int z
  | SFloat text => text
  | SMissing => "nan"
  end.

(** The canonical year-month form "YYYY-MM": four digits, a dash, and a
    two-digit month between 01 and 12. *)
Definition canonical_year_month (s : string) : bool :=
  match s with
  | String y1 (String y2 (String y3 (String y4 (String dash
      (String m1 (String m2 EmptyString)))))) =>
      is_digit y1 && is_digit y2 && is_digit y3 && is_digit y4
      && Ascii.eqb dash "-"%char
      && is_digit m1 && is_digit m2
      && let m := (10 * (nat_of_ascii m1 - 48) + (nat_of_ascii m2 - 48))%nat in
         (1 <=? m)%nat && (m <=? 12)%nat
  | _ => false
  end.

(** A row of the orders CSV after [read_csv(..., parse_dates=["order_date"])]. *)
Record RawOrder : Type := {
  ro_order_id : Z;
  ro_order_date : date;
  ro_customer_id : string;
  ro_channel : string;
  ro_revenue : float64
}.

(** A row of [orders] as [load_inputs] returns it. *)
Record Order : Type := {
  order_id : Z;
  order_date : date;
  order_month : string;
  customer_id : string;
  channel : string;
  revenue : float64
}.

(** A row of the spend CSV after [read_csv]. *)
Record RawSpend : Type := {
  rs_month : scalar;
  rs_channel : string;
  rs_spend : float64
}.

(** A row of [spend] as [load_inputs] returns it. *)
Record SpendRecord : Type := {
  sp_month : string;
  sp_channel : string;
  sp_spend : float64
}.

(** Line 27 reads [orders["order_date"].dt]: on an orders table without
    rows the column has no datetime type and the access raises
    [AttributeError]. *)
Definition load_inputs (orders_csv : list RawOrder) (spend_csv : list RawSpend)
  : result (list Order * list SpendRecord) :=
  let orders :=
    map (fun o => {| order_id := ro_order_id o;
                     order_date := ro_order_date o;
                     order_month := strftime_Y_m (ro_order_date o);
                     customer_id := ro_customer_id o;
                     channel := ro_channel o;
                     revenue := ro_revenue o |}) orders_csv in
  let spend :=
    map (fun s => {| sp_month := astype_str (rs_month s);
                     sp_channel := rs_channel s;
                     sp_spend := rs_spend s |}) spend_csv in
  match orders_csv with
  | [] => Raise AttributeError
  | _ :: _ => Ok (orders, spend)
  end.

(* ================================================================== *)
(** ** [build_mart_and_cohorts] *)

(** The distinct values of a column, in order of first appearance (the
    groups of a [GROUP BY]). *)
Fixpoint distinct (l : list string) : list string :=
  match l with
  | [] => []
  | x :: l' => x :: filter (fun y => negb (String.eqb x y)) (distinct l')
  end.

(** A row of [first_orders]. *)
Record FirstOrder : Type := {
  fo_customer_id : string;
  first_order_date : date;
  fo_cohort_month : string;
  acquisition_channel : string
}.

(** One group of [GROUP BY customer_id]: [MIN(order_date)], its
    ['%Y-%m'] rendering, and [ANY_VALUE(channel)], taken from the first
    row of the group. *)
Definition first_order_of (c : string) (group : list Order) : list FirstOrder :=
  match group with
  | [] => []
  | o :: group' =>
      let d := fold_left date_min (map order_date group') (order_date o) in
      [ {| fo_customer_id := c;
           first_order_date := d;
           fo_cohort_month := strftime_Y_m d;
           acquisition_channel := channel o |} ]
  end.

Definition first_orders (fact_orders : list Order) : list FirstOrder :=
  flat_map
    (fun c => first_order_of c
                (filter (fun o => String.eqb (customer_id o) c) fact_orders))
    (distinct (map customer_id fact_orders)).

(** A row of [fct]. *)
Record EnrichedOrder : Type := {
  eo_order : Order;
  eo_cohort_month : string;
  eo_acquisition_channel : string;
  months_since_cohort : Z
}.

(** [fact_orders f JOIN first_orders fo USING (customer_id)]. *)
Definition fct (fact_orders : list Order) (fos : list FirstOrder)
  : list EnrichedOrder :=
  flat_map
    (fun f =>
       map (fun fo =>
              {| eo_order := f;
                 eo_cohort_month := fo_cohort_month fo;
                 eo_acquisition_channel := acquisition_channel fo;
                 months_since_cohort :=
                   date_diff_month (date_trunc_month (first_order_date fo))
                                   (date_trunc_month (order_date f)) |})
           (filter (fun fo => String.eqb (fo_customer_id fo) (customer_id f)) fos))
    fact_orders.

Definition key_compare (a b : string * Z) : comparison :=
  match String.compare (fst a) (fst b) with
  | Eq => Z.compare (snd a) (snd b)
  | c => c
  end.

(** SQL [SUM]: missing values are skipped, and the sum of no value at
    all is missing. *)
Definition sql_sum (l : list float64) : float64 :=
  match filter (fun x => negb (isna x)) l with
  | [] => NaN
  | xs => fsum xs
  end.

(** pandas [sum()] of a group: missing values are skipped, and the sum
    of no value at all is 0. *)
Definition pandas_sum (l : list float64) : float64 :=
  fsum (filter (fun x => negb (isna x)) l).

Definition eo_key (e : EnrichedOrder) : string * Z :=
  (eo_cohort_month e, months_since_cohort e).

(** [SELECT cohort_month, months_since_cohort, SUM(revenue) FROM fct
    GROUP BY 1,2 ORDER BY 1,2]. *)
Definition cohort_rev_of (rows : list EnrichedOrder) : list CohortRevenue :=
  map (fun k =>
         {| cr_cohort_month := fst k;
            cr_months_since_cohort := snd k;
            cr_revenue :=
              sql_sum (map (fun e => revenue (eo_order e))
                           (filter (fun e => key_eqb (eo_key e) k) rows)) |})
      (sort_unique key_compare (map eo_key rows)).

(** [SELECT cohort_month, COUNT(DISTINCT customer_id) FROM first_orders
    GROUP BY 1 ORDER BY 1]. *)
Definition acq_counts_of (fos : list FirstOrder) : list CohortSize :=
  map (fun m =>
         {| cs_cohort_month := m;
            cs_new_customers :=
              Z.of_nat
                (List.length
                   (distinct
                      (map fo_customer_id
                           (filter (fun fo => String.eqb (fo_cohort_month fo) m)
                                   fos)))) |})
      (sort_unique String.compare (map fo_cohort_month fos)).

(** A row of [spend_by_month]. *)
Record CohortSpend : Type := {
  csp_cohort_month : string;
  csp_spend_total : float64
}.

(** [spend.groupby("month", as_index=False)["spend"].sum()] with the
    columns renamed. *)
Definition spend_by_month (spend : list SpendRecord) : list CohortSpend :=
  map (fun m =>
         {| csp_cohort_month := m;
            csp_spend_total :=
              pandas_sum (map sp_spend
                              (filter (fun s => String.eqb (sp_month s) m) spend)) |})
      (sort_unique String.compare (map sp_month spend)).

(** A row of [cac]. *)
Record CohortCAC : Type := {
  cac_cohort_month : string;
  cac_new_customers : Z;
  cac_spend_total : float64;
  CAC : float64
}.

(** One left row of [acq_counts.merge(spend_by_month, on="cohort_month",
    how="left").fillna({"spend_total": 0})] with its [CAC] column. *)
Definition cac_rows_of (sbm : list CohortSpend) (a : CohortSize) : list CohortCAC :=
  let mk total :=
    let spend_total := fillna_0 total in
    {| cac_cohort_month := cs_cohort_month a;
       cac_new_customers := cs_new_customers a;
       cac_spend_total := spend_total;
       CAC := fdiv spend_total (replace_0_nan (of_int (cs_new_customers a))) |} in
  match filter (fun s => String.eqb (csp_cohort_month s) (cs_cohort_month a)) sbm with
  | [] => [mk NaN]
  | ms => map (fun s => mk (csp_spend_total s)) ms
  end.

(** Lines 87 to 90: the [cac] frame from [acq_counts] and [spend]. *)
Definition cohort_cac (acq_counts : list CohortSize) (spend : list SpendRecord)
  : list CohortCAC :=
  flat_map (cac_rows_of (spend_by_month spend)) acq_counts.

Definition build_mart_and_cohorts (orders : list Order) (spend : list SpendRecord)
  : list CohortRevenue * list CohortSize * list CohortCAC :=
  let fact_orders := orders in
  let fos := first_orders fact_orders in
  let cohort_rev := cohort_rev_of (fct fact_orders fos) in
  let acq_counts := acq_counts_of fos in
  let cac := cohort_cac acq_counts spend in
  (cohort_rev, acq_counts, cac).

(* ================================================================== *)
(** ** [export_excel]: the summary frame *)

(** A row of [summary]. *)
Record SummaryRow : Type := {
  s_cohort_month : string;
  LTV_latest : float64;
  s_CAC : float64;
  LTV_to_CAC : float64
}.

(** [ltv_cum.columns.max() if len(ltv_cum.columns) else 0]. *)
Definition latest_column (cols : list Z) : Z :=
  match cols with
  | [] => 0
  | k :: cols' => fold_left Z.max cols' k
  end.

(** One row of [summary.merge(cac_df[["cohort_month", "CAC"]],
    on="cohort_month", how="left")] with its [LTV_to_CAC] column. *)
Definition summary_rows_of (cac_df : list CohortCAC) (c : string) (ltv_latest : float64)
  : list SummaryRow :=
  let mk cac := {| s_cohort_month := c;
                   LTV_latest := ltv_latest;
                   s_CAC := cac;
                   LTV_to_CAC := fdiv ltv_latest cac |} in
  match filter (fun r => String.eqb (cac_cohort_month r) c) cac_df with
  | [] => [mk NaN]
  | ms => map (fun r => mk (CAC r)) ms
  end.

(** Lines 106 to 109 of [export_excel]: the [summary] frame that the
    function builds and, when the writer block of lines 111 to 122 runs
    through, returns; [ltv_cum[[latest]]] raises [KeyError] when the
    frame has no such column.  The writer block (the two sheets and the
    column widths) is not represented: what is stated of an [Ok] result
    is stated of the summary of a call that returns. *)
Definition export_excel (ltv_cum : Grid) (cac_df : list CohortCAC)
  : result (list SummaryRow) :=
  let latest := latest_column (columns ltv_cum) in
  match index_of Z.eqb latest (columns ltv_cum) with
  | None => Raise KeyError
  | Some j =>
      Ok (flat_map (fun r => summary_rows_of cac_df (fst r) (nth j (snd r) NaN))
                   (rows ltv_cum))
  end.

(** The whole pipeline of [main], from the parsed CSV rows to the
    summary. *)
Definition pipeline (orders_csv : list RawOrder) (spend_csv : list RawSpend)
  : result (Grid * list SummaryRow) :=
  match load_inputs orders_csv spend_csv with
  | Raise e => Raise e
  | Ok (orders, spend) =>
      let '(cohort_rev, acq_counts, cac) := build_mart_and_cohorts orders spend in
      match ltv_tables cohort_rev acq_counts with
      | Raise e => Raise e
      | Ok ltv_cum =>
          match export_excel ltv_cum cac with
          | Raise e => Raise e
          | Ok summary => Ok (ltv_cum, summary)
          end
      end
  end.

(* ================================================================== *)
(** ** Auxiliary definitions used in the statements and proofs *)

(** Non-negative cells: a finite value at least 0, or plus infinity. *)
Definition nonneg (x : float64) : Prop := fle fzero x.

(** The [new_customers] cell that the left join attaches to cohort [c]. *)
Definition joined_customers (acq_counts : list CohortSize) (c : string) : float64 :=
  match find (fun a => String.eqb (cs_cohort_month a) c) acq_counts with
  | Some a => of_int (cs_new_customers a)
  | None => NaN
  end.

Definition merge_row (acq_counts : list CohortSize) (r : CohortRevenue) : LtvRow :=
  {| lr_cohort_month := cr_cohort_month r;
     lr_months_since_cohort := cr_months_since_cohort r;
     lr_revenue := cr_revenue r;
     lr_new_customers := joined_customers acq_counts (cr_cohort_month r) |}.

(** The [ltv] value that reaches cell (c, k) of the pivot. *)
Definition avg_revenue (cohort_rev : list CohortRevenue) (acq_counts : list CohortSize)
           (c : string) (k : Z) : float64 :=
  match find (fun r => key_eqb (cr_key r) (c, k)) cohort_rev with
  | Some r => fdiv (cr_revenue r) (replace_0_nan (joined_customers acq_counts c))
  | None => NaN
  end.

Definition dense_cell (cohort_rev : list CohortRevenue) (acq_counts : list CohortSize)
           (c : string) (k : Z) : float64 :=
  fillna_0 (avg_revenue cohort_rev acq_counts c k).

Definition observed_offsets (cohort_rev : list CohortRevenue) : list Z :=
  sort_unique Z.compare (map cr_months_since_cohort cohort_rev).

Definition observed_cohorts (cohort_rev : list CohortRevenue) : list string :=
  sort_unique String.compare (map cr_cohort_month cohort_rev).

(** Both frames are keyed uniquely (the check [pivot] performs, and the
    same check on the join column of [acq_counts]). *)
Definition keyed_uniquely (cohort_rev : list CohortRevenue)
           (acq_counts : list CohortSize) : bool :=
  negb (duplicated key_eqb (map cr_key cohort_rev))
  && negb (duplicated String.eqb (map cs_cohort_month acq_counts)).

Definition nonnegb (x : float64) : bool :=
  match x with
  | NaN => false
  | Inf neg => negb neg
  | Fin q => Qle_bool 0 q
  end.

(** Two sample frames: cohort "2023-02" has revenue rows and no size
    row. *)
Definition unmatched_cohort_rev : list CohortRevenue :=
  [ {| cr_cohort_month := "2023-01"; cr_months_since_cohort := 0;
       cr_revenue := of_int 100 |};
    {| cr_cohort_month := "2023-02"; cr_months_since_cohort := 0;
       cr_revenue := of_int 40 |};
    {| cr_cohort_month := "2023-02"; cr_months_since_cohort := 2;
       cr_revenue := of_int 8 |} ].

(** The total spend recorded for month [m], over all channels. *)
Definition monthly_spend (spend : list SpendRecord) (m : string) : float64 :=
  pandas_sum (map sp_spend (filter (fun s => String.eqb (sp_month s) m) spend)).

Definition cac_row (spend : list SpendRecord) (a : CohortSize) : CohortCAC :=
  let spend_total := fillna_0 (monthly_spend spend (cs_cohort_month a)) in
  {| cac_cohort_month := cs_cohort_month a;
     cac_new_customers := cs_new_customers a;
     cac_spend_total := spend_total;
     CAC := fdiv spend_total (replace_0_nan (of_int (cs_new_customers a))) |}.

Definition no_spend_rows (spend : list SpendRecord) (m : string) : bool :=
  negb (existsb (fun s => String.eqb (sp_month s) m) spend).

(** Sample frames: "2023-01" has spend on two channels, "2023-02" has
    customers and no spend, "2023-03" has no customers, and "2024-01"
    has spend and no cohort. *)
Definition sample_acq : list CohortSize :=
  [ {| cs_cohort_month := "2023-01"; cs_new_customers := 10 |};
    {| cs_cohort_month := "2023-02"; cs_new_customers := 4 |};
    {| cs_cohort_month := "2023-03"; cs_new_customers := 0 |} ].

Definition sample_spend : list SpendRecord :=
  [ {| sp_month := "2023-01"; sp_channel := "ads"; sp_spend := of_int 300 |};
    {| sp_month := "2023-01"; sp_channel := "seo"; sp_spend := of_int 200 |};
    {| sp_month := "2024-01"; sp_channel := "ads"; sp_spend := of_int 70 |} ].

(** Sample orders: customer "a" orders in January and March 2023, "b"
    in February 2023, "c" in December 2022 and January 2023. *)
Definition sample_raw_orders : list RawOrder :=
  [ {| ro_order_id := 1; ro_order_date := {| year := 2023; month := 1; day := 5 |};
       ro_customer_id := "a"; ro_channel := "ads"; ro_revenue := of_int 100 |};
    {| ro_order_id := 2; ro_order_date := {| year := 2023; month := 3; day := 9 |};
       ro_customer_id := "a"; ro_channel := "ads"; ro_revenue := of_int 50 |};
    {| ro_order_id := 3; ro_order_date := {| year := 2023; month := 2; day := 5 |};
       ro_customer_id := "b"; ro_channel := "seo"; ro_revenue := of_int 30 |};
    {| ro_order_id := 4; ro_order_date := {| year := 2022; month := 12; day := 25 |};
       ro_customer_id := "c"; ro_channel := "seo"; ro_revenue := of_int 30 |};
    {| ro_order_id := 5; ro_order_date := {| year := 2023; month := 1; day := 25 |};
       ro_customer_id := "c"; ro_channel := "seo"; ro_revenue := of_int 7 |} ].

Definition sample_orders : list Order :=
  match load_inputs sample_raw_orders [] with
  | Ok (orders, _) => orders
  | Raise _ => []
  end.

Definition zsum (l : list Z) : Z := fold_right Z.add 0 l.

(** The number of distinct [customer_id] values of the orders. *)
Definition distinct_customers (orders : list Order) : Z :=
  Z.of_nat (List.length (nodup string_dec (map customer_id orders))).





(** One customer, acquired in January 2023 with an order of 100, and a
    spend table without any row. *)
Definition zero_spend_orders : list RawOrder :=
  [ {| ro_order_id := 1; ro_order_date := {| year := 2023; month := 1; day := 5 |};
       ro_customer_id := "a"; ro_channel := "ads"; ro_revenue := of_int 100 |} ].

Definition is_plus_infinity (x : float64) : bool :=
  match x with Inf false => true | _ => false end.

Definition single_row_check (r : result (Grid * list SummaryRow)) : bool :=
  match r with
  | Ok (_, [s]) =>
      String.eqb (s_cohort_month s) "2023-01"
      && feqb (LTV_latest s) (of_int 100)
      && feqb (s_CAC s) fzero
      && is_plus_infinity (LTV_to_CAC s)
  | _ => false
  end.

(* ================================================================== *)
(** ** Further auxiliary definitions *)

(** A cell that holds a number: neither [NaN] nor an infinity. *)
Definition is_finite (x : float64) : bool :=
  match x with Fin _ => true | _ => false end.

(** The number of rows of [acq_counts] that the join matches with a row
    of [cohort_rev]. *)
Definition size_rows_matching (acq_counts : list CohortSize) (r : CohortRevenue) : nat :=
  List.length
    (filter (fun a => String.eqb (cs_cohort_month a) (cr_cohort_month r)) acq_counts).

(** The CAC that the left join of [export_excel] attaches to cohort
    [c]: the CAC of its row of [cac_df], [NaN] without such a row. *)
Definition joined_cac (cac_df : list CohortCAC) (c : string) : float64 :=
  match find (fun r => String.eqb (cac_cohort_month r) c) cac_df with
  | Some r => CAC r
  | None => NaN
  end.

(** A valid date whose year has at most four digits (pandas timestamps
    lie between 1677 and 2262). *)
Definition four_digit_date (d : date) : bool :=
  valid_date d && (0 <=? year d) && (year d <? 10000).

(* ================================================================== *)
(** * Properties *)

(** ** Arithmetic of cells *)

Lemma Qc_is_zero_true (q : Qc) : Qc_is_zero q = true <-> q = Q2Qc 0.
Proof.
  unfold Qc_is_zero. rewrite Qeq_bool_iff. split.
  - intros H. apply Qc_is_canon. simpl. exact H.
  - intros ->. reflexivity.
Qed.

Lemma Qc_is_zero_false (q : Qc) : Qc_is_zero q = false <-> q <> Q2Qc 0.
Proof.
  rewrite <- Qc_is_zero_true. destruct (Qc_is_zero q); split; congruence.
Qed.

Lemma of_int_zero (z : Z) : Qc_is_zero (Q2Qc (inject_Z z)) = true <-> z = 0.
Proof.
  unfold Qc_is_zero. rewrite Qeq_bool_iff. cbn [this Q2Qc].
  rewrite Qred_correct. unfold Qeq, inject_Z. simpl. lia.
Qed.

Lemma replace_0_nan_of_int (z : Z) :
  replace_0_nan (of_int z) = if z =? 0 then NaN else of_int z.
Proof.
  unfold replace_0_nan, of_int.
  destruct (Qc_is_zero (Q2Qc (inject_Z z))) eqn:E.
  - apply of_int_zero in E. subst. reflexivity.
  - destruct (Z.eqb_spec z 0) as [->|]; [|reflexivity].
    assert (Hz : Qc_is_zero (Q2Qc (inject_Z 0)) = true) by (apply of_int_zero; reflexivity).
    congruence.
Qed.

Lemma fadd_zero_l (x : float64) : fadd fzero x = x.
Proof.
  destruct x as [|s|q]; simpl; try reflexivity.
  f_equal. apply Qcplus_0_l.
Qed.

Lemma feqb_eq (x y : float64) : feqb x y = true -> x = y.
Proof.
  destruct x as [|s|a], y as [|t|b]; simpl; try discriminate.
  - intros H. apply Bool.eqb_prop in H. now subst.
  - intros H. apply Qeq_bool_iff in H. f_equal. now apply Qc_is_canon.
Qed.

Lemma fillna_0_notna (x : float64) : isna (fillna_0 x) = false.
Proof. destruct x; reflexivity. Qed.

Lemma fillna_0_id (x : float64) : x <> NaN -> fillna_0 x = x.
Proof. destruct x; simpl; intros H; [now elim H | reflexivity | reflexivity]. Qed.

Lemma fdiv_zero_l (q : Qc) : q <> Q2Qc 0 -> fdiv fzero (Fin q) = fzero.
Proof.
  intros Hq. unfold fdiv, fzero.
  apply Qc_is_zero_false in Hq. rewrite Hq.
  f_equal. unfold Qcdiv. apply Qcmult_0_l.
Qed.

Lemma fdiv_notna (x : float64) (q : Qc) :
  x <> NaN -> q <> Q2Qc 0 -> fdiv x (Fin q) <> NaN.
Proof.
  intros Hx Hq. apply Qc_is_zero_false in Hq.
  destruct x as [|s|a]; simpl; try congruence.
  rewrite Hq. discriminate.
Qed.

Lemma nonneg_fadd (x y : float64) :
  nonneg x -> nonneg y -> nonneg (fadd x y) /\ fle x (fadd x y).
Proof.
  unfold nonneg.
  destruct x as [|[|]|a], y as [|[|]|b]; simpl; try tauto.
  intros Ha Hb. split.
  - replace (Q2Qc 0) with (Q2Qc 0 + Q2Qc 0)%Qc by apply Qcplus_0_l.
    now apply Qcplus_le_compat.
  - rewrite <- (Qcplus_0_r a) at 1.
    apply Qcplus_le_compat; [apply Qcle_refl | exact Hb].
Qed.

Lemma fle_refl (x : float64) : x <> NaN -> fle x x.
Proof. destruct x as [|[|]|a]; simpl; try tauto. intros _. apply Qcle_refl. Qed.

Lemma fle_trans (x y z : float64) : fle x y -> fle y z -> fle x z.
Proof.
  destruct x as [|[|]|a], y as [|[|]|b], z as [|[|]|c]; simpl; try tauto.
  apply Qcle_trans.
Qed.

Lemma Qc_is_neg_false (q : Qc) : (Q2Qc 0 <= q)%Qc -> Qc_is_neg q = false.
Proof.
  intros H. unfold Qc_is_neg. apply negb_false_iff. apply Qle_bool_iff. exact H.
Qed.

Lemma Qcdiv_nonneg (a b : Qc) :
  (Q2Qc 0 <= a)%Qc -> (Q2Qc 0 < b)%Qc -> (Q2Qc 0 <= a / b)%Qc.
Proof.
  unfold Qcle, Qclt, Qcdiv, Qcmult, Qcinv. cbn [this Q2Qc].
  rewrite !Qred_correct. intros Ha Hb.
  apply Qmult_le_0_compat; [exact Ha|].
  apply Qinv_le_0_compat. now apply Qlt_le_weak.
Qed.

Lemma nonneg_fdiv_of_int (x : float64) (n : Z) :
  nonneg x -> 0 < n -> nonneg (fdiv x (of_int n)).
Proof.
  unfold nonneg, of_int. intros Hx Hn.
  assert (Hpos : (Q2Qc 0 < Q2Qc (inject_Z n))%Qc).
  { unfold Qclt. cbn [this Q2Qc]. rewrite !Qred_correct.
    unfold Qlt, inject_Z. simpl. lia. }
  assert (Hnz : Qc_is_zero (Q2Qc (inject_Z n)) = false).
  { apply Qc_is_zero_false. intros E. rewrite E in Hpos. now apply Qclt_not_eq in Hpos. }
  destruct x as [|[|]|a]; simpl in *; try tauto.
  - rewrite Qc_is_neg_false; [exact I | now apply Qclt_le_weak].
  - rewrite Hnz. simpl. apply Qcdiv_nonneg; assumption.
Qed.

(** ** Sorted, duplicate-free key lists *)

Section SortedKeysFacts.
Context {K : Type} (cmp : K -> K -> comparison).
Hypothesis cmp_eq : forall a b, cmp a b = Eq <-> a = b.
Hypothesis cmp_antisym : forall a b, cmp a b = CompOpp (cmp b a).
Hypothesis cmp_trans : forall a b c, cmp a b = Lt -> cmp b c = Lt -> cmp a c = Lt.

Lemma In_insert_key (x : K) (l : list K) (y : K) :
  In y (insert_key cmp x l) <-> y = x \/ In y l.
Proof.
  induction l as [|z l IH]; simpl.
  - intuition.
  - destruct (cmp x z) eqn:E; simpl.
    + apply cmp_eq in E. subst. intuition.
    + intuition.
    + rewrite IH. intuition.
Qed.

Lemma In_sort_unique (l : list K) (y : K) :
  In y (sort_unique cmp l) <-> In y l.
Proof.
  induction l as [|x l IH]; simpl; [tauto|].
  rewrite In_insert_key, IH. intuition.
Qed.

Lemma insert_key_sorted (x : K) (l : list K) :
  StronglySorted (cmp_lt cmp) l -> StronglySorted (cmp_lt cmp) (insert_key cmp x l).
Proof.
  induction 1 as [|z l Hs IH Hz]; simpl.
  - repeat constructor.
  - destruct (cmp x z) eqn:E.
    + now constructor.
    + constructor; [now constructor|].
      constructor; [exact E|].
      rewrite Forall_forall in *. intros y Hy.
      apply (cmp_trans x z y E). now apply Hz.
    + constructor; [exact IH|].
      rewrite Forall_forall in *. intros y Hy.
      apply In_insert_key in Hy. destruct Hy as [->|Hy]; [|now apply Hz].
      unfold cmp_lt. rewrite cmp_antisym, E. reflexivity.
Qed.

Lemma sort_unique_sorted (l : list K) : StronglySorted (cmp_lt cmp) (sort_unique cmp l).
Proof.
  induction l as [|x l IH]; simpl; [constructor|].
  now apply insert_key_sorted.
Qed.

Lemma cmp_lt_irrefl (a : K) : ~ cmp_lt cmp a a.
Proof.
  unfold cmp_lt. intros H.
  assert (E : cmp a a = Eq) by now apply cmp_eq.
  congruence.
Qed.

Lemma sorted_NoDup (l : list K) : StronglySorted (cmp_lt cmp) l -> NoDup l.
Proof.
  induction 1 as [|z l Hs IH Hz]; constructor; [|exact IH].
  intros Hin. rewrite Forall_forall in Hz.
  exact (cmp_lt_irrefl z (Hz z Hin)).
Qed.

Lemma sort_unique_NoDup (l : list K) : NoDup (sort_unique cmp l).
Proof. apply sorted_NoDup, sort_unique_sorted. Qed.

(** Sorting rows whose labels are already in strict order changes
    nothing. *)
Lemma sort_rows_sorted {V : Type} (l : list (K * V)) :
  StronglySorted (cmp_lt cmp) (map fst l) -> sort_rows cmp l = l.
Proof.
  induction l as [|r l IH]; simpl; [reflexivity|].
  intros Hs. inversion Hs as [|? ? Hs' Hr]; subst.
  unfold sort_rows in *. simpl. rewrite (IH Hs').
  destruct l as [|r' l']; [reflexivity|].
  simpl in *. inversion Hr as [|? ? Hlt _]; subst.
  unfold cmp_lt in Hlt. now rewrite Hlt.
Qed.
End SortedKeysFacts.

Lemma Z_compare_trans (a b c : Z) :
  Z.compare a b = Lt -> Z.compare b c = Lt -> Z.compare a c = Lt.
Proof. rewrite !Z.compare_lt_iff. lia. Qed.

Lemma Z_compare_antisym (a b : Z) : Z.compare a b = CompOpp (Z.compare b a).
Proof. apply Z.compare_antisym. Qed.

Lemma string_compare_trans (a b c : string) :
  String.compare a b = Lt -> String.compare b c = Lt -> String.compare a c = Lt.
Proof.
  intros H1 H2.
  apply String_as_OT.cmp_lt in H1. apply String_as_OT.cmp_lt in H2.
  apply String_as_OT.cmp_lt. exact (String_as_OT.lt_trans _ _ _ H1 H2).
Qed.

Lemma columns_sorted (l : list Z) :
  StronglySorted Z.lt (sort_unique Z.compare l).
Proof.
  generalize (sort_unique_sorted Z.compare Z.compare_eq_iff Z_compare_antisym
                                 Z_compare_trans l).
  apply StronglySorted_ind; constructor; auto.
Qed.

Lemma In_columns (l : list Z) (k : Z) : In k (sort_unique Z.compare l) <-> In k l.
Proof. apply In_sort_unique, Z.compare_eq_iff. Qed.

Lemma In_months (l : list string) (m : string) :
  In m (sort_unique String.compare l) <-> In m l.
Proof. apply In_sort_unique, String_as_OT.cmp_eq. Qed.

Lemma months_sorted (l : list string) :
  StronglySorted (cmp_lt String.compare) (sort_unique String.compare l).
Proof.
  apply sort_unique_sorted.
  - apply String_as_OT.cmp_eq.
  - apply String_as_OT.cmp_antisym.
  - apply string_compare_trans.
Qed.

Lemma months_NoDup (l : list string) : NoDup (sort_unique String.compare l).
Proof.
  apply (sorted_NoDup String.compare String_as_OT.cmp_eq), months_sorted.
Qed.

(** ** Lists: lookups, duplicates, prefixes *)

Section KeyedLists.
Context {K : Type} (eqb : K -> K -> bool).
Hypothesis eqb_spec : forall a b, eqb a b = true <-> a = b.

Lemma existsb_eqb_In (x : K) (l : list K) : existsb (eqb x) l = true <-> In x l.
Proof.
  rewrite existsb_exists. split.
  - intros [y [Hy E]]. apply eqb_spec in E. now subst.
  - intros H. exists x. split; [exact H | now apply eqb_spec].
Qed.

Lemma duplicated_false (l : list K) : duplicated eqb l = false <-> NoDup l.
Proof.
  induction l as [|x l IH]; simpl.
  - split; [constructor | reflexivity].
  - rewrite orb_false_iff, IH, NoDup_cons_iff.
    assert (H : existsb (eqb x) l = false <-> ~ In x l).
    { rewrite <- existsb_eqb_In. destruct (existsb (eqb x) l); split; congruence. }
    tauto.
Qed.

Lemma filter_key_unique {A : Type} (f : A -> K) (k : K) (l : list A) :
  NoDup (map f l) ->
  filter (fun x => eqb (f x) k) l =
  match find (fun x => eqb (f x) k) l with
  | Some a => [a]
  | None => []
  end.
Proof.
  induction l as [|a l IH]; simpl; [reflexivity|].
  intros Hnd. apply NoDup_cons_iff in Hnd. destruct Hnd as [Hnotin Hnd].
  destruct (eqb (f a) k) eqn:E.
  - apply eqb_spec in E. f_equal.
    assert (Hnone : forall y, In y l -> eqb (f y) k = false).
    { intros y Hy. destruct (eqb (f y) k) eqn:E'; [|reflexivity].
      apply eqb_spec in E'. exfalso. apply Hnotin.
      rewrite E, <- E'. now apply in_map. }
    clear IH Hnd Hnotin. induction l as [|b l IH]; simpl; [reflexivity|].
    rewrite (Hnone b (or_introl eq_refl)). apply IH.
    intros y Hy. apply Hnone. now right.
  - now apply IH.
Qed.

Lemma find_key_None {A : Type} (f : A -> K) (k : K) (l : list A) :
  find (fun x => eqb (f x) k) l = None <-> ~ In k (map f l).
Proof.
  induction l as [|a l IH]; simpl; [tauto|].
  destruct (eqb (f a) k) eqn:E.
  - apply eqb_spec in E. split; [discriminate | intros H; exfalso; apply H; now left].
  - rewrite IH. split; [|tauto].
    intros H [H'|H']; [|tauto]. apply eqb_spec in H'. congruence.
Qed.

Lemma find_key_Some {A : Type} (f : A -> K) (k : K) (l : list A) (a : A) :
  find (fun x => eqb (f x) k) l = Some a -> In a l /\ f a = k.
Proof.
  intros H. apply find_some in H. now rewrite eqb_spec in H.
Qed.

Lemma find_key_NoDup {A : Type} (f : A -> K) (l : list A) (a : A) :
  NoDup (map f l) -> In a l -> find (fun x => eqb (f x) (f a)) l = Some a.
Proof.
  induction l as [|b l IH]; simpl; [tauto|].
  intros Hnd Hin. apply NoDup_cons_iff in Hnd. destruct Hnd as [Hnotin Hnd].
  destruct (eqb (f b) (f a)) eqn:E.
  - apply eqb_spec in E. destruct Hin as [->|Hin]; [reflexivity|].
    exfalso. apply Hnotin. rewrite E. now apply in_map.
  - destruct Hin as [->|Hin]; [|now apply IH].
    assert (E' : eqb (f a) (f a) = true) by now apply eqb_spec.
    congruence.
Qed.

Lemma index_of_In (k : K) (l : list K) :
  In k l -> exists j, index_of eqb k l = Some j /\ nth_error l j = Some k.
Proof.
  induction l as [|x l IH]; simpl; [tauto|].
  intros Hin. destruct (eqb k x) eqn:E.
  - apply eqb_spec in E. subst. now exists O.
  - destruct Hin as [->|Hin].
    + assert (E' : eqb k k = true) by now apply eqb_spec. congruence.
    + destruct (IH Hin) as [j [Hj Hn]]. rewrite Hj. now exists (S j).
Qed.

Lemma index_of_None (k : K) (l : list K) :
  ~ In k l -> index_of eqb k l = None.
Proof.
  induction l as [|x l IH]; simpl; [reflexivity|].
  intros Hnin. destruct (eqb k x) eqn:E.
  - apply eqb_spec in E. subst. tauto.
  - rewrite IH; tauto.
Qed.
End KeyedLists.

Lemma key_eqb_spec (a b : string * Z) : key_eqb a b = true <-> a = b.
Proof.
  destruct a as [s k], b as [t j]. unfold key_eqb. simpl.
  rewrite andb_true_iff, String.eqb_eq, Z.eqb_eq.
  split; [intros [-> ->]; reflexivity | intros H; inversion H; auto].
Qed.

Lemma find_map {A B : Type} (p : B -> bool) (g : A -> B) (l : list A) :
  find p (map g l) = option_map g (find (fun x => p (g x)) l).
Proof.
  induction l as [|a l IH]; simpl; [reflexivity|].
  destruct (p (g a)); [reflexivity | exact IH].
Qed.

Lemma flat_map_singleton {A B : Type} (f : A -> list B) (g : A -> B) (l : list A) :
  (forall a, In a l -> f a = [g a]) -> flat_map f l = map g l.
Proof.
  induction l as [|a l IH]; simpl; [reflexivity|].
  intros H. rewrite (H a (or_introl eq_refl)). simpl. f_equal.
  apply IH. intros b Hb. apply H. now right.
Qed.

(** In a strictly increasing list the entries up to the one at position
    [j] are the first [j + 1] entries. *)
Lemma filter_le_firstn (l : list Z) (j : nat) (k : Z) :
  StronglySorted Z.lt l -> nth_error l j = Some k ->
  filter (fun x => x <=? k) l = firstn (S j) l.
Proof.
  intros Hs. revert j. induction Hs as [|x l Hs IH Hx]; intros j Hj.
  - destruct j; discriminate.
  - rewrite Forall_forall in Hx. destruct j as [|j]; simpl in Hj.
    + inversion Hj; subst. simpl. rewrite Z.leb_refl. f_equal.
      clear IH Hs Hj. induction l as [|z l' IHl]; [reflexivity|].
      simpl. assert (Hz : k < z) by (apply Hx; now left).
      destruct (Z.leb_spec z k); [lia|].
      apply IHl. intros w Hw. apply Hx. now right.
    + assert (Hk : x < k) by (apply Hx; eapply nth_error_In; exact Hj).
      simpl. destruct (Z.leb_spec x k); [|lia].
      f_equal. exact (IH j Hj).
Qed.

Lemma cumsum_from_nth (l : list float64) :
  Forall (fun x => isna x = false) l ->
  forall (acc : float64) (j : nat), (j < List.length l)%nat ->
    nth_error (cumsum_from acc l) j = Some (fold_left fadd (firstn (S j) l) acc).
Proof.
  induction 1 as [|x l Hx Hl IH]; intros acc j Hj; simpl in Hj; [lia|].
  simpl cumsum_from. rewrite Hx. destruct j as [|j]; [reflexivity|].
  cbn [nth_error]. rewrite IH by lia. reflexivity.
Qed.

Lemma cumsum_from_length (l : list float64) (acc : float64) :
  List.length (cumsum_from acc l) = List.length l.
Proof.
  revert acc. induction l as [|x l IH]; intros acc; simpl; [reflexivity|].
  destruct (isna x); simpl; now rewrite IH.
Qed.

(** ** The shape of the frames of [ltv_tables] *)

Lemma keyed_uniquely_NoDup cohort_rev acq_counts :
  keyed_uniquely cohort_rev acq_counts = true ->
  NoDup (map cr_key cohort_rev) /\ NoDup (map cs_cohort_month acq_counts).
Proof.
  unfold keyed_uniquely. rewrite andb_true_iff, !negb_true_iff.
  rewrite (duplicated_false key_eqb key_eqb_spec).
  rewrite (duplicated_false String.eqb String.eqb_eq). tauto.
Qed.

Lemma merge_left_one_unique acq_counts r :
  NoDup (map cs_cohort_month acq_counts) ->
  merge_left_one acq_counts r = [merge_row acq_counts r].
Proof.
  intros Hnd. unfold merge_left_one, merge_row, joined_customers.
  rewrite (filter_key_unique String.eqb String.eqb_eq cs_cohort_month _ _ Hnd).
  destruct (find _ acq_counts); reflexivity.
Qed.

Lemma merge_left_unique cohort_rev acq_counts :
  NoDup (map cs_cohort_month acq_counts) ->
  merge_left cohort_rev acq_counts = map (merge_row acq_counts) cohort_rev.
Proof.
  intros Hnd. unfold merge_left. apply flat_map_singleton.
  intros r _. now apply merge_left_one_unique.
Qed.

Lemma pivot_cell_merged cohort_rev acq_counts c k :
  pivot_cell ltv_value (map (merge_row acq_counts) cohort_rev) c k
  = avg_revenue cohort_rev acq_counts c k.
Proof.
  unfold pivot_cell, avg_revenue. rewrite find_map.
  change (fun x => key_eqb (lr_key (merge_row acq_counts x)) (c, k))
    with (fun x => key_eqb (cr_key x) (c, k)).
  destruct (find _ cohort_rev) as [r|] eqn:E; [|reflexivity].
  apply (find_key_Some key_eqb key_eqb_spec) in E. destruct E as [_ E].
  inversion E; subst. reflexivity.
Qed.

Lemma ltv_pivot_shape cohort_rev acq_counts :
  keyed_uniquely cohort_rev acq_counts = true ->
  ltv_pivot cohort_rev acq_counts =
  Ok {| columns := observed_offsets cohort_rev;
        rows := map (fun c => (c, map (dense_cell cohort_rev acq_counts c)
                                      (observed_offsets cohort_rev)))
                    (observed_cohorts cohort_rev) |}.
Proof.
  intros Hu. pose proof (keyed_uniquely_NoDup _ _ Hu) as [Hrev Hacq].
  unfold ltv_pivot. rewrite (merge_left_unique _ _ Hacq). unfold pivot.
  assert (Hk : map lr_key (map (merge_row acq_counts) cohort_rev)
               = map cr_key cohort_rev) by now rewrite map_map.
  assert (Ho : map lr_months_since_cohort (map (merge_row acq_counts) cohort_rev)
               = map cr_months_since_cohort cohort_rev) by now rewrite map_map.
  assert (Hm : map lr_cohort_month (map (merge_row acq_counts) cohort_rev)
               = map cr_cohort_month cohort_rev) by now rewrite map_map.
  rewrite Hk, Ho, Hm.
  apply (duplicated_false key_eqb key_eqb_spec) in Hrev. rewrite Hrev.
  fold (observed_offsets cohort_rev). fold (observed_cohorts cohort_rev).
  unfold sort_index, fillna. cbn [columns rows]. f_equal.
  rewrite map_map. cbn [fst snd].
  rewrite (sort_rows_sorted String.compare).
  - f_equal. apply map_ext. intros c. f_equal.
    rewrite map_map. apply map_ext. intros k.
    unfold dense_cell. now rewrite pivot_cell_merged.
  - rewrite map_map. cbn [fst]. rewrite map_id. apply months_sorted.
Qed.

Lemma ltv_tables_shape cohort_rev acq_counts :
  keyed_uniquely cohort_rev acq_counts = true ->
  ltv_tables cohort_rev acq_counts =
  Ok {| columns := observed_offsets cohort_rev;
        rows := map (fun c => (c, cumsum_row
                                    (map (dense_cell cohort_rev acq_counts c)
                                         (observed_offsets cohort_rev))))
                    (observed_cohorts cohort_rev) |}.
Proof.
  intros Hu. unfold ltv_tables. rewrite (ltv_pivot_shape _ _ Hu).
  unfold cumsum. cbn [columns rows]. now rewrite map_map.
Qed.

(** Looking a cell up in a frame whose rows are computed per label. *)
Lemma loc_computed (cols : list Z) (idx : list string)
      (F : string -> list float64) (c : string) (k : Z) (j : nat) :
  In c idx -> index_of Z.eqb k cols = Some j ->
  loc {| columns := cols; rows := map (fun c => (c, F c)) idx |} c k
  = nth_error (F c) j.
Proof.
  intros Hc Hj. unfold loc. cbn [columns rows]. rewrite find_map. cbn [fst].
  destruct (find (fun x => String.eqb x c) idx) as [c'|] eqn:E.
  - apply find_some in E. destruct E as [_ E]. apply String.eqb_eq in E. subst.
    cbn [option_map snd]. now rewrite Hj.
  - exfalso. apply (find_key_None String.eqb String.eqb_eq (fun x => x)) in E.
    apply E. now rewrite map_id.
Qed.

Lemma loc_pivot_cell cohort_rev acq_counts c k :
  In c (observed_cohorts cohort_rev) -> In k (observed_offsets cohort_rev) ->
  loc {| columns := observed_offsets cohort_rev;
         rows := map (fun c => (c, map (dense_cell cohort_rev acq_counts c)
                                       (observed_offsets cohort_rev)))
                     (observed_cohorts cohort_rev) |} c k
  = Some (dense_cell cohort_rev acq_counts c k).
Proof.
  intros Hc Hk.
  destruct (index_of_In Z.eqb Z.eqb_eq k _ Hk) as [j [Hj Hn]].
  rewrite (loc_computed _ _ _ c k j Hc Hj).
  now apply map_nth_error.
Qed.

Lemma loc_cumulative_cell cohort_rev acq_counts c k :
  In c (observed_cohorts cohort_rev) -> In k (observed_offsets cohort_rev) ->
  loc {| columns := observed_offsets cohort_rev;
         rows := map (fun c => (c, cumsum_row
                                     (map (dense_cell cohort_rev acq_counts c)
                                          (observed_offsets cohort_rev))))
                     (observed_cohorts cohort_rev) |} c k
  = Some (fsum (map (dense_cell cohort_rev acq_counts c)
                    (filter (fun j => j <=? k) (observed_offsets cohort_rev)))).
Proof.
  intros Hc Hk.
  destruct (index_of_In Z.eqb Z.eqb_eq k _ Hk) as [j [Hj Hn]].
  rewrite (loc_computed _ _ _ c k j Hc Hj).
  unfold cumsum_row. rewrite cumsum_from_nth.
  - rewrite (filter_le_firstn (observed_offsets cohort_rev) j k (columns_sorted _) Hn).
    unfold fsum. now rewrite firstn_map.
  - apply Forall_forall. intros x Hx. apply in_map_iff in Hx.
    destruct Hx as [k' [<- _]]. apply fillna_0_notna.
  - rewrite length_map. apply nth_error_Some. congruence.
Qed.

Lemma dense_cell_missing cohort_rev acq_counts c k :
  ~ In (c, k) (map cr_key cohort_rev) -> dense_cell cohort_rev acq_counts c k = fzero.
Proof.
  intros H. unfold dense_cell, avg_revenue.
  apply (find_key_None key_eqb key_eqb_spec cr_key) in H. now rewrite H.
Qed.

Lemma joined_customers_found acq_counts a :
  NoDup (map cs_cohort_month acq_counts) -> In a acq_counts ->
  joined_customers acq_counts (cs_cohort_month a) = of_int (cs_new_customers a).
Proof.
  intros Hnd Hin. unfold joined_customers.
  now rewrite (find_key_NoDup String.eqb String.eqb_eq cs_cohort_month _ a Hnd Hin).
Qed.

Lemma joined_customers_missing acq_counts c :
  ~ In c (map cs_cohort_month acq_counts) -> joined_customers acq_counts c = NaN.
Proof.
  intros H. unfold joined_customers.
  apply (find_key_None String.eqb String.eqb_eq cs_cohort_month) in H. now rewrite H.
Qed.

Lemma of_int_nonzero (n : Z) : n <> 0 -> Q2Qc (inject_Z n) <> Q2Qc 0.
Proof.
  intros Hn E. apply Qc_is_zero_true in E. apply of_int_zero in E. contradiction.
Qed.

Lemma dense_cell_present cohort_rev acq_counts r a :
  NoDup (map cr_key cohort_rev) -> NoDup (map cs_cohort_month acq_counts) ->
  In r cohort_rev -> In a acq_counts ->
  cs_cohort_month a = cr_cohort_month r ->
  cs_new_customers a <> 0 -> cr_revenue r <> NaN ->
  dense_cell cohort_rev acq_counts (cr_cohort_month r) (cr_months_since_cohort r)
  = fdiv (cr_revenue r) (of_int (cs_new_customers a)).
Proof.
  intros Hrev Hacq Hr Ha Hc Hn Hx. unfold dense_cell, avg_revenue.
  change (cr_cohort_month r, cr_months_since_cohort r) with (cr_key r).
  rewrite (find_key_NoDup key_eqb key_eqb_spec cr_key _ r Hrev Hr).
  rewrite <- Hc, (joined_customers_found _ _ Hacq Ha).
  rewrite replace_0_nan_of_int.
  destruct (Z.eqb_spec (cs_new_customers a) 0) as [E|_]; [contradiction|].
  apply fillna_0_id. apply fdiv_notna; [exact Hx | now apply of_int_nonzero].
Qed.

(** ** [ltv_tables]: the dense cumulative grid *)

Lemma In_grid_index_shape cohort_rev (F : string -> list float64) c :
  In c (grid_index {| columns := observed_offsets cohort_rev;
                      rows := map (fun c => (c, F c)) (observed_cohorts cohort_rev) |})
  <-> In c (map cr_cohort_month cohort_rev).
Proof.
  unfold grid_index. cbn [rows]. rewrite map_map. cbn [fst]. rewrite map_id.
  apply In_months.
Qed.

(** C1.  For inputs keyed uniquely, [ltv_tables] returns a grid whose
    columns are exactly the offsets observed in any cohort, in increasing
    order.  Before accumulation ([ltv_pivot]) a cell with no revenue row
    holds 0 and a cell with a revenue row holds revenue / new_customers;
    after accumulation the cell at offset [k] is the sum of the cells of
    its row at the columns [j <= k]. *)
Theorem ltv_tables_dense_cumulative
        (cohort_rev : list CohortRevenue) (acq_counts : list CohortSize) :
  keyed_uniquely cohort_rev acq_counts = true ->
  exists p g,
    ltv_pivot cohort_rev acq_counts = Ok p /\
    ltv_tables cohort_rev acq_counts = Ok g /\
    columns p = columns g /\
    StronglySorted Z.lt (columns g) /\
    (forall k, In k (columns g) <-> In k (map cr_months_since_cohort cohort_rev)) /\
    (forall c, In c (grid_index g) <-> In c (map cr_cohort_month cohort_rev)) /\
    (forall c k, In c (grid_index g) -> In k (columns g) ->
       (~ In (c, k) (map cr_key cohort_rev) -> loc p c k = Some fzero) /\
       (forall r a,
           In r cohort_rev -> cr_key r = (c, k) ->
           In a acq_counts -> cs_cohort_month a = c ->
           cs_new_customers a <> 0 -> cr_revenue r <> NaN ->
           loc p c k = Some (fdiv (cr_revenue r) (of_int (cs_new_customers a)))) /\
       loc g c k =
       Some (fsum (map (value_at p c) (filter (fun j => j <=? k) (columns g))))).
Proof.
  intros Hu. pose proof (keyed_uniquely_NoDup _ _ Hu) as [Hrev Hacq].
  eexists. eexists.
  split; [exact (ltv_pivot_shape _ _ Hu)|].
  split; [exact (ltv_tables_shape _ _ Hu)|].
  cbn [columns].
  split; [reflexivity|].
  split; [apply columns_sorted|].
  split; [intros k; apply In_columns|].
  split; [intros c; apply In_grid_index_shape|].
  intros c k Hc Hk. apply In_grid_index_shape in Hc. apply In_months in Hc.
  fold (observed_cohorts cohort_rev) in Hc.
  rewrite (loc_pivot_cell _ acq_counts _ _ Hc Hk).
  split; [|split].
  - intros Hmiss. apply f_equal. exact (dense_cell_missing _ _ _ _ Hmiss).
  - intros r a Hr Hkey Ha Hcm Hn Hx. inversion Hkey; subst. apply f_equal.
    now apply dense_cell_present.
  - rewrite (loc_cumulative_cell _ _ _ _ Hc Hk). do 2 apply f_equal.
    apply map_ext_in. intros j Hj. apply filter_In in Hj. destruct Hj as [Hj _].
    unfold value_at. now rewrite (loc_pivot_cell _ acq_counts _ _ Hc Hj).
Qed.

Lemma ltv_tables_dense_cumulative_witness :
  exists p g,
    ltv_pivot test_cohort_rev test_acq = Ok p /\
    ltv_tables test_cohort_rev test_acq = Ok g /\
    loc g "2023-01" 1 =
    Some (fsum (map (value_at p "2023-01") (filter (fun j => j <=? 1) (columns g)))).
Proof.
  destruct (ltv_tables_dense_cumulative test_cohort_rev test_acq eq_refl)
    as [p [g [Hp [Hg [_ [_ [Hcols [Hidx Hcell]]]]]]]].
  exists p, g. split; [exact Hp|]. split; [exact Hg|].
  apply Hcell; [apply Hidx | apply Hcols]; simpl; auto.
Defined.

Lemma loc_is_true (r : result Grid) (c : string) (k : Z) (v : float64) :
  loc_is r c k v = true -> exists g, r = Ok g /\ loc g c k = Some v.
Proof.
  unfold loc_is. destruct r as [g|e]; [|discriminate].
  destruct (loc g c k) as [x|] eqn:E; [|discriminate].
  intros H. apply feqb_eq in H. subst. now exists g.
Qed.

(** C2.  On the inputs of [test_ltv_simple] (cohort "2023-01" with
    revenue 100.0 at offset 0 and 50.0 at offset 1, and 10 new
    customers) [ltv_tables] returns a grid with 10.0 at offset 0 and
    15.0 at offset 1. *)
Theorem test_ltv_simple :
  exists g,
    ltv_tables test_cohort_rev test_acq = Ok g /\
    loc g "2023-01" 0 = Some (of_int 10) /\
    loc g "2023-01" 1 = Some (of_int 15).
Proof.
  assert (H0 : loc_is (ltv_tables test_cohort_rev test_acq) "2023-01" 0 (of_int 10) = true)
    by (vm_compute; reflexivity).
  assert (H1 : loc_is (ltv_tables test_cohort_rev test_acq) "2023-01" 1 (of_int 15) = true)
    by (vm_compute; reflexivity).
  apply loc_is_true in H0. apply loc_is_true in H1.
  destruct H0 as [g [Hg H0]]. destruct H1 as [g' [Hg' H1]].
  assert (g' = g) by congruence. subst g'.
  exists g. auto.
Qed.

(** ** Monotone rows *)

Lemma nonnegb_spec (x : float64) : nonnegb x = true <-> nonneg x.
Proof.
  unfold nonneg. destruct x as [|[|]|q]; simpl; try (split; [discriminate|tauto]);
    try tauto.
  apply Qle_bool_iff.
Qed.

Lemma nonneg_fzero : nonneg fzero.
Proof. unfold nonneg, fzero. simpl. apply Qcle_refl. Qed.

Lemma nonneg_notna (x : float64) : nonneg x -> x <> NaN.
Proof. destruct x; simpl; [tauto | discriminate | discriminate]. Qed.

Lemma fdiv_nan_r (x : float64) : fdiv x NaN = NaN.
Proof. destruct x; reflexivity. Qed.

Lemma cumsum_from_ge (l : list float64) :
  Forall nonneg l ->
  forall acc j v, nonneg acc -> nth_error (cumsum_from acc l) j = Some v ->
                  fle acc v /\ nonneg v.
Proof.
  induction 1 as [|x l Hx Hl IH]; intros acc j v Hacc Hv.
  - destruct j; discriminate.
  - simpl in Hv.
    assert (Hna : isna x = false) by (destruct x; [destruct Hx | reflexivity | reflexivity]).
    rewrite Hna in Hv.
    destruct (nonneg_fadd acc x Hacc Hx) as [Hsum Hle].
    destruct j as [|j]; simpl in Hv.
    + inversion Hv; subst. auto.
    + destruct (IH _ _ _ Hsum Hv) as [Hle' Hv']. split; [|exact Hv'].
      exact (fle_trans _ _ _ Hle Hle').
Qed.

Lemma cumsum_from_mono (l : list float64) :
  Forall nonneg l ->
  forall acc i j v1 v2,
    nonneg acc -> (i <= j)%nat ->
    nth_error (cumsum_from acc l) i = Some v1 ->
    nth_error (cumsum_from acc l) j = Some v2 ->
    fle v1 v2.
Proof.
  induction 1 as [|x l Hx Hl IH]; intros acc i j v1 v2 Hacc Hij H1 H2.
  - destruct i; discriminate.
  - simpl in H1, H2.
    assert (Hna : isna x = false) by (destruct x; [destruct Hx | reflexivity | reflexivity]).
    rewrite Hna in H1, H2.
    destruct (nonneg_fadd acc x Hacc Hx) as [Hsum Hle].
    destruct i as [|i], j as [|j]; simpl in H1, H2; try lia.
    + inversion H1; inversion H2; subst. apply fle_refl. now apply nonneg_notna.
    + inversion H1; subst. exact (proj1 (cumsum_from_ge l Hl _ _ _ Hsum H2)).
    + apply (IH _ i j v1 v2 Hsum); [lia | assumption | assumption].
Qed.

Lemma sorted_nth_lt (l : list Z) :
  StronglySorted Z.lt l ->
  forall i j a b, (i < j)%nat -> nth_error l i = Some a -> nth_error l j = Some b ->
                  a < b.
Proof.
  induction 1 as [|x l Hs IH Hx]; intros i j a b Hij Ha Hb.
  - destruct i; discriminate.
  - destruct j as [|j]; [lia|]. simpl in Hb. destruct i as [|i]; simpl in Ha.
    + inversion Ha; subst. rewrite Forall_forall in Hx. apply Hx.
      eapply nth_error_In; exact Hb.
    + apply (IH i j); [lia | assumption | assumption].
Qed.

Lemma dense_cell_nonneg cohort_rev acq_counts c k :
  NoDup (map cs_cohort_month acq_counts) ->
  (forall r, In r cohort_rev -> nonneg (cr_revenue r)) ->
  (forall a, In a acq_counts -> 0 < cs_new_customers a) ->
  nonneg (dense_cell cohort_rev acq_counts c k).
Proof.
  intros Hacq Hrev Hpos. unfold dense_cell, avg_revenue.
  destruct (find _ cohort_rev) as [r|] eqn:Er; [|apply nonneg_fzero].
  apply find_some in Er. destruct Er as [Hr _].
  unfold joined_customers.
  destruct (find _ acq_counts) as [a|] eqn:Ea.
  - apply find_some in Ea. destruct Ea as [Ha _].
    pose proof (Hpos a Ha) as Hn. rewrite replace_0_nan_of_int.
    destruct (Z.eqb_spec (cs_new_customers a) 0) as [E|_]; [lia|].
    assert (Hq : nonneg (fdiv (cr_revenue r) (of_int (cs_new_customers a))))
      by (apply nonneg_fdiv_of_int; auto).
    rewrite fillna_0_id; [exact Hq | now apply nonneg_notna].
  - simpl. rewrite fdiv_nan_r. apply nonneg_fzero.
Qed.

(** C7.  When every revenue is at least 0 and every cohort size is
    positive, each row of the grid returned by [ltv_tables] is
    non-decreasing along increasing offsets. *)
Theorem ltv_cumulative_monotone
        (cohort_rev : list CohortRevenue) (acq_counts : list CohortSize) :
  keyed_uniquely cohort_rev acq_counts = true ->
  forallb (fun r => nonnegb (cr_revenue r)) cohort_rev = true ->
  forallb (fun a => 0 <? cs_new_customers a) acq_counts = true ->
  exists g,
    ltv_tables cohort_rev acq_counts = Ok g /\
    forall c k1 k2,
      In c (grid_index g) -> In k1 (columns g) -> In k2 (columns g) -> k1 <= k2 ->
      exists v1 v2,
        loc g c k1 = Some v1 /\ loc g c k2 = Some v2 /\ fle v1 v2.
Proof.
  intros Hu Hrev Hpos. pose proof (keyed_uniquely_NoDup _ _ Hu) as [_ Hacq].
  rewrite forallb_forall in Hrev, Hpos.
  assert (Hrev' : forall r, In r cohort_rev -> nonneg (cr_revenue r))
    by (intros r Hr; apply nonnegb_spec; auto).
  assert (Hpos' : forall a, In a acq_counts -> 0 < cs_new_customers a)
    by (intros a Ha; apply Z.ltb_lt; auto).
  eexists. split; [exact (ltv_tables_shape _ _ Hu)|].
  cbn [columns]. intros c k1 k2 Hc Hk1 Hk2 Hle.
  apply In_grid_index_shape in Hc. apply In_months in Hc.
  fold (observed_cohorts cohort_rev) in Hc.
  destruct (index_of_In Z.eqb Z.eqb_eq k1 _ Hk1) as [j1 [Hj1 Hn1]].
  destruct (index_of_In Z.eqb Z.eqb_eq k2 _ Hk2) as [j2 [Hj2 Hn2]].
  rewrite (loc_computed _ _ _ c k1 j1 Hc Hj1), (loc_computed _ _ _ c k2 j2 Hc Hj2).
  set (cells := map (dense_cell cohort_rev acq_counts c) (observed_offsets cohort_rev)).
  assert (Hlen : List.length (cumsum_row cells) = List.length (observed_offsets cohort_rev)).
  { unfold cumsum_row, cells. now rewrite cumsum_from_length, length_map. }
  destruct (nth_error (cumsum_row cells) j1) as [v1|] eqn:E1.
  2:{ apply nth_error_None in E1. assert (j1 < List.length (observed_offsets cohort_rev))%nat
        by (apply nth_error_Some; congruence). lia. }
  destruct (nth_error (cumsum_row cells) j2) as [v2|] eqn:E2.
  2:{ apply nth_error_None in E2. assert (j2 < List.length (observed_offsets cohort_rev))%nat
        by (apply nth_error_Some; congruence). lia. }
  exists v1, v2. split; [reflexivity|]. split; [reflexivity|].
  assert (Hij : (j1 <= j2)%nat).
  { destruct (Nat.le_gt_cases j1 j2) as [H|H]; [exact H|].
    pose proof (sorted_nth_lt _ (columns_sorted _) j2 j1 k2 k1 H Hn2 Hn1). lia. }
  apply (cumsum_from_mono cells) with (acc := fzero) (i := j1) (j := j2); auto.
  - apply Forall_forall. intros x Hx. apply in_map_iff in Hx.
    destruct Hx as [k [<- _]]. now apply dense_cell_nonneg.
  - apply nonneg_fzero.
Qed.

Lemma ltv_cumulative_monotone_witness :
  exists g,
    ltv_tables test_cohort_rev test_acq = Ok g /\
    exists v1 v2,
      loc g "2023-01" 0 = Some v1 /\ loc g "2023-01" 1 = Some v2 /\ fle v1 v2.
Proof.
  destruct (ltv_cumulative_monotone test_cohort_rev test_acq eq_refl eq_refl eq_refl)
    as [g [Hg Hmono]].
  exists g. split; [exact Hg|].
  pose proof (ltv_tables_shape test_cohort_rev test_acq eq_refl) as Hs.
  rewrite Hg in Hs. inversion Hs; subst g. clear Hs.
  apply Hmono; [simpl; auto | simpl; auto | simpl; auto | lia].
Defined.

(** ** A cohort without a size row *)

Lemma fold_zeros (l : list float64) :
  Forall (eq fzero) l -> fold_left fadd l fzero = fzero.
Proof.
  induction 1 as [|x l Hx Hl IH]; cbn [fold_left]; [reflexivity|].
  subst x. rewrite fadd_zero_l. exact IH.
Qed.

Lemma dense_cell_unmatched cohort_rev acq_counts c k :
  ~ In c (map cs_cohort_month acq_counts) ->
  dense_cell cohort_rev acq_counts c k = fzero.
Proof.
  intros H. unfold dense_cell, avg_revenue.
  rewrite (joined_customers_missing _ _ H). simpl.
  destruct (find _ cohort_rev); [rewrite fdiv_nan_r|]; reflexivity.
Qed.

(** C10.  A cohort with rows in [cohort_rev] and no row in [acq_counts]
    does not make [ltv_tables] fail: the left join leaves its
    [new_customers], and so its per-customer revenue, undefined, and the
    returned grid has a row for it that holds 0 in every column. *)
Theorem ltv_tables_unmatched_cohort
        (cohort_rev : list CohortRevenue) (acq_counts : list CohortSize) (c : string) :
  keyed_uniquely cohort_rev acq_counts = true ->
  existsb (String.eqb c) (map cr_cohort_month cohort_rev) = true ->
  existsb (String.eqb c) (map cs_cohort_month acq_counts) = false ->
  (forall r, In r (merge_left cohort_rev acq_counts) -> lr_cohort_month r = c ->
             lr_new_customers r = NaN /\ ltv_value r = NaN) /\
  exists g,
    ltv_tables cohort_rev acq_counts = Ok g /\
    In c (grid_index g) /\
    forall k, In k (columns g) -> loc g c k = Some fzero.
Proof.
  intros Hu Hin Hout. pose proof (keyed_uniquely_NoDup _ _ Hu) as [_ Hacq].
  apply (existsb_eqb_In String.eqb String.eqb_eq) in Hin.
  assert (Hmiss : ~ In c (map cs_cohort_month acq_counts)).
  { intros H. apply (existsb_eqb_In String.eqb String.eqb_eq) in H. congruence. }
  split.
  - intros r Hr Hc. rewrite (merge_left_unique _ _ Hacq) in Hr.
    apply in_map_iff in Hr. destruct Hr as [r0 [<- _]].
    unfold ltv_value. cbn [merge_row lr_new_customers lr_cohort_month lr_revenue] in *.
    subst c. rewrite (joined_customers_missing _ _ Hmiss).
    split; [reflexivity | apply fdiv_nan_r].
  - eexists. split; [exact (ltv_tables_shape _ _ Hu)|].
    split; [now apply In_grid_index_shape|].
    cbn [columns]. intros k Hk.
    rewrite loc_cumulative_cell; [|now apply In_months|exact Hk].
    apply f_equal. unfold fsum. apply fold_zeros.
    apply Forall_forall. intros x Hx. apply in_map_iff in Hx.
    destruct Hx as [j [<- _]]. symmetry. now apply dense_cell_unmatched.
Qed.

Lemma ltv_tables_unmatched_cohort_witness :
  exists g,
    ltv_tables unmatched_cohort_rev test_acq = Ok g /\
    In "2023-02" (grid_index g) /\
    forall k, In k (columns g) -> loc g "2023-02" k = Some fzero.
Proof.
  exact (proj2 (ltv_tables_unmatched_cohort unmatched_cohort_rev test_acq "2023-02"
                                            eq_refl eq_refl eq_refl)).
Defined.

(** ** [build_mart_and_cohorts]: the CAC frame *)

Lemma no_spend_rows_filter spend m :
  no_spend_rows spend m = true ->
  filter (fun s => String.eqb (sp_month s) m) spend = [].
Proof.
  unfold no_spend_rows. rewrite negb_true_iff. intros H.
  induction spend as [|s spend IH]; simpl in *; [reflexivity|].
  apply orb_false_iff in H. destruct H as [H1 H2]. rewrite H1. now apply IH.
Qed.

Lemma monthly_spend_none spend m :
  no_spend_rows spend m = true -> monthly_spend spend m = fzero.
Proof.
  intros H. unfold monthly_spend. now rewrite (no_spend_rows_filter _ _ H).
Qed.

Lemma spend_by_month_keys spend :
  map csp_cohort_month (spend_by_month spend)
  = sort_unique String.compare (map sp_month spend).
Proof.
  unfold spend_by_month. rewrite map_map. cbn [csp_cohort_month]. apply map_id.
Qed.

Lemma cac_rows_of_single spend a :
  cac_rows_of (spend_by_month spend) a = [cac_row spend a].
Proof.
  unfold cac_rows_of.
  rewrite (filter_key_unique String.eqb String.eqb_eq csp_cohort_month).
  2:{ rewrite spend_by_month_keys. apply months_NoDup. }
  unfold spend_by_month at 1. rewrite find_map. cbn [csp_cohort_month].
  destruct (find (fun x => String.eqb x (cs_cohort_month a)) _) as [m|] eqn:E.
  - apply find_some in E. destruct E as [_ E]. apply String.eqb_eq in E. subst m.
    reflexivity.
  - apply (find_key_None String.eqb String.eqb_eq (fun x => x)) in E.
    rewrite map_id, In_months in E.
    assert (Hnone : no_spend_rows spend (cs_cohort_month a) = true).
    { unfold no_spend_rows. apply negb_true_iff.
      destruct (existsb _ spend) eqn:Ex; [|reflexivity].
      apply existsb_exists in Ex. destruct Ex as [s [Hs Hm]].
      apply String.eqb_eq in Hm. exfalso. apply E. rewrite <- Hm. now apply in_map. }
    cbn [option_map]. unfold cac_row.
    rewrite (monthly_spend_none _ _ Hnone). reflexivity.
Qed.

Lemma cohort_cac_rows acq_counts spend :
  cohort_cac acq_counts spend = map (cac_row spend) acq_counts.
Proof.
  unfold cohort_cac. apply flat_map_singleton. intros a _. apply cac_rows_of_single.
Qed.

Lemma build_mart_cac orders spend :
  let '(_, acq_counts, cac) := build_mart_and_cohorts orders spend in
  cac = cohort_cac acq_counts spend.
Proof. reflexivity. Qed.

Lemma fillna_0_neq_nan (x : float64) : fillna_0 x <> NaN.
Proof. destruct x; discriminate. Qed.

(** C3.  In every row of the CAC frame, CAC is spend_total divided by
    new_customers, and it is the undefined marker [NaN] exactly when
    new_customers is 0; a cohort with customers and no spend rows gets a
    row with spend_total 0 and CAC 0. *)
Theorem cac_defined_iff_customers
        (acq_counts : list CohortSize) (spend : list SpendRecord) :
  (forall row, In row (cohort_cac acq_counts spend) ->
     (cac_new_customers row <> 0 ->
      CAC row = fdiv (cac_spend_total row) (of_int (cac_new_customers row))) /\
     (CAC row = NaN <-> cac_new_customers row = 0)) /\
  (forall a, In a acq_counts -> 0 < cs_new_customers a ->
     no_spend_rows spend (cs_cohort_month a) = true ->
     exists row, In row (cohort_cac acq_counts spend) /\
                 cac_cohort_month row = cs_cohort_month a /\
                 cac_new_customers row = cs_new_customers a /\
                 cac_spend_total row = fzero /\
                 CAC row = fzero).
Proof.
  rewrite cohort_cac_rows. split.
  - intros row Hrow. apply in_map_iff in Hrow. destruct Hrow as [a [<- _]].
    unfold cac_row. cbn [CAC cac_new_customers cac_spend_total].
    rewrite replace_0_nan_of_int.
    destruct (Z.eqb_spec (cs_new_customers a) 0) as [E|E].
    + split; [contradiction|]. rewrite fdiv_nan_r. tauto.
    + split; [reflexivity|]. split; [|contradiction].
      intros H. exfalso. revert H.
      apply fdiv_notna; [apply fillna_0_neq_nan | now apply of_int_nonzero].
  - intros a Ha Hn Hnone. exists (cac_row spend a).
    split; [now apply in_map|].
    unfold cac_row. cbn [CAC cac_new_customers cac_spend_total cac_cohort_month].
    rewrite (monthly_spend_none _ _ Hnone), replace_0_nan_of_int.
    destruct (Z.eqb_spec (cs_new_customers a) 0) as [E|E]; [lia|].
    repeat split. unfold of_int. apply fdiv_zero_l. now apply of_int_nonzero.
Qed.

Lemma cac_defined_iff_customers_witness :
  exists row, In row (cohort_cac sample_acq sample_spend) /\
              cac_cohort_month row = "2023-02" /\
              cac_new_customers row = 4 /\
              cac_spend_total row = fzero /\
              CAC row = fzero.
Proof.
  apply (proj2 (cac_defined_iff_customers sample_acq sample_spend)
               {| cs_cohort_month := "2023-02"; cs_new_customers := 4 |}).
  - simpl. auto.
  - simpl. lia.
  - reflexivity.
Defined.

(** C5.  The CAC frame has exactly the cohort months of the size frame,
    one row each and in the same order: a month that occurs only in the
    spend table gives no row, and a cohort month without spend rows gives
    a row with spend_total 0.  The spend_total of a row is the sum of the
    spend of its month over all channels. *)
Theorem cac_keys_are_cohort_months
        (acq_counts : list CohortSize) (spend : list SpendRecord) :
  map cac_cohort_month (cohort_cac acq_counts spend) = map cs_cohort_month acq_counts /\
  (forall m, In m (map cac_cohort_month (cohort_cac acq_counts spend))
             <-> In m (map cs_cohort_month acq_counts)) /\
  (forall s, In s spend -> ~ In (sp_month s) (map cs_cohort_month acq_counts) ->
             ~ In (sp_month s) (map cac_cohort_month (cohort_cac acq_counts spend))) /\
  (forall row, In row (cohort_cac acq_counts spend) ->
     cac_spend_total row =
     fillna_0 (pandas_sum (map sp_spend
                 (filter (fun s => String.eqb (sp_month s) (cac_cohort_month row)) spend))) /\
     (no_spend_rows spend (cac_cohort_month row) = true ->
      cac_spend_total row = fzero)).
Proof.
  assert (Hkeys : map cac_cohort_month (cohort_cac acq_counts spend)
                  = map cs_cohort_month acq_counts).
  { rewrite cohort_cac_rows, map_map. reflexivity. }
  split; [exact Hkeys|]. rewrite Hkeys.
  split; [tauto|]. split; [tauto|].
  intros row Hrow. rewrite cohort_cac_rows in Hrow.
  apply in_map_iff in Hrow. destruct Hrow as [a [<- _]].
  unfold cac_row. cbn [cac_spend_total cac_cohort_month].
  split; [reflexivity|].
  intros Hnone. now rewrite (monthly_spend_none _ _ Hnone).
Qed.

Lemma cac_keys_are_cohort_months_witness :
  ~ In "2024-01" (map cac_cohort_month (cohort_cac sample_acq sample_spend)).
Proof.
  apply (proj1 (proj2 (proj2 (cac_keys_are_cohort_months sample_acq sample_spend)))
               {| sp_month := "2024-01"; sp_channel := "ads"; sp_spend := of_int 70 |}).
  - simpl. auto.
  - simpl. intros [H|[H|[H|[]]]]; discriminate.
Defined.

(** ** Dates and first orders *)

Lemma date_leb_iff (a b : date) :
  date_leb a b = true <->
  year a < year b \/
  (year a = year b /\ (month a < month b \/ (month a = month b /\ day a <= day b))).
Proof.
  unfold date_leb, date_compare.
  destruct (Z.compare_spec (year a) (year b));
    destruct (Z.compare_spec (month a) (month b));
    destruct (Z.compare_spec (day a) (day b));
    split; intros; try reflexivity; try discriminate; lia.
Qed.

Lemma date_leb_refl (a : date) : date_leb a a = true.
Proof. apply date_leb_iff. lia. Qed.

Lemma date_leb_trans (a b c : date) :
  date_leb a b = true -> date_leb b c = true -> date_leb a c = true.
Proof. rewrite !date_leb_iff. lia. Qed.

Lemma date_leb_total (a b : date) : date_leb a b = true \/ date_leb b a = true.
Proof. rewrite !date_leb_iff. lia. Qed.

Lemma date_min_spec (a b : date) :
  (date_min a b = a \/ date_min a b = b) /\
  date_leb (date_min a b) a = true /\ date_leb (date_min a b) b = true.
Proof.
  unfold date_min. destruct (date_leb a b) eqn:E.
  - repeat split; auto. apply date_leb_refl.
  - repeat split; auto; [|apply date_leb_refl].
    destruct (date_leb_total a b); congruence.
Qed.

(** [MIN(order_date)] over a group is one of its dates and is not after
    any of them. *)
Lemma fold_date_min_spec (l : list date) (d0 : date) :
  let m := fold_left date_min l d0 in
  In m (d0 :: l) /\ forall d, In d (d0 :: l) -> date_leb m d = true.
Proof.
  revert d0. induction l as [|x l IH]; intros d0; simpl.
  - split; [now left|]. intros d [<-|[]]. apply date_leb_refl.
  - destruct (IH (date_min d0 x)) as [Hin Hle]. simpl in Hin, Hle.
    destruct (date_min_spec d0 x) as [Hor [Hl0 Hlx]].
    split.
    + destruct Hin as [Hin|Hin]; [|now right; right].
      rewrite <- Hin. destruct Hor as [->| ->]; auto.
    + intros d [<-|[<-|Hd]].
      * apply (date_leb_trans _ (date_min d0 x)); [|exact Hl0]. apply Hle. now left.
      * apply (date_leb_trans _ (date_min d0 x)); [|exact Hlx]. apply Hle. now left.
      * apply Hle. now right.
Qed.

Lemma iter_next_month (n : nat) (a : date) :
  1 <= month a <= 12 ->
  let d := Nat.iter n next_month a in
  1 <= month d <= 12 /\
  year d * 12 + month d = year a * 12 + month a + Z.of_nat n /\
  day d = day a.
Proof.
  intros Ha. induction n as [|n IH].
  - simpl. lia.
  - cbv zeta in *.
    change (Nat.iter (S n) next_month a) with (next_month (Nat.iter n next_month a)).
    set (d := Nat.iter n next_month a) in *.
    destruct IH as [Hm [Hidx Hday]].
    unfold next_month. destruct (Z.eqb_spec (month d) 12); simpl; lia.
Qed.

Lemma date_eq (a b : date) :
  year a = year b -> month a = month b -> day a = day b -> a = b.
Proof. destruct a, b; simpl; intros; subst; reflexivity. Qed.

Lemma valid_date_month (d : date) : valid_date d = true -> 1 <= month d <= 12.
Proof. unfold valid_date. rewrite !andb_true_iff, !Z.leb_le. lia. Qed.

(** ** [first_orders] and [fct] *)

Lemma In_distinct (l : list string) (x : string) : In x (distinct l) <-> In x l.
Proof.
  induction l as [|y l IH]; simpl; [tauto|].
  rewrite filter_In, IH, negb_true_iff, String.eqb_neq.
  destruct (string_dec y x); intuition.
Qed.

Lemma NoDup_distinct (l : list string) : NoDup (distinct l).
Proof.
  induction l as [|y l IH]; simpl; constructor.
  - rewrite filter_In, negb_true_iff, String.eqb_neq. tauto.
  - now apply NoDup_filter.
Qed.

Lemma distinct_NoDup_id (l : list string) : NoDup l -> distinct l = l.
Proof.
  induction 1 as [|x l Hx Hl IH]; simpl; [reflexivity|].
  rewrite IH. f_equal. apply forallb_filter_id. apply forallb_forall.
  intros y Hy. apply negb_true_iff, String.eqb_neq. congruence.
Qed.

(** The rows of [first_orders], one per group. *)
Lemma In_first_orders orders fo :
  In fo (first_orders orders) ->
  exists o group,
    filter (fun x => String.eqb (customer_id x) (fo_customer_id fo)) orders = o :: group /\
    first_order_date fo = fold_left date_min (map order_date group) (order_date o) /\
    fo_cohort_month fo = strftime_Y_m (first_order_date fo) /\
    acquisition_channel fo = channel o.
Proof.
  unfold first_orders. intros H. apply in_flat_map in H.
  destruct H as [c [_ H]]. unfold first_order_of in H.
  destruct (filter _ orders) as [|o group] eqn:E; [destruct H|].
  destruct H as [<-|[]]. cbn. exists o, group. rewrite E. auto.
Qed.

Lemma first_orders_customers orders :
  map fo_customer_id (first_orders orders) = distinct (map customer_id orders).
Proof.
  unfold first_orders.
  assert (H : forall cs, (forall c, In c cs -> In c (map customer_id orders)) ->
    map fo_customer_id
        (flat_map (fun c => first_order_of c
                              (filter (fun o => String.eqb (customer_id o) c) orders)) cs)
    = cs).
  { induction cs as [|c cs IH]; intros Hcs; simpl; [reflexivity|].
    rewrite map_app, IH by (intros; apply Hcs; now right).
    assert (Hc : In c (map customer_id orders)) by (apply Hcs; now left).
    apply in_map_iff in Hc. destruct Hc as [o [Ho Hin]].
    destruct (filter _ orders) as [|o' g] eqn:E.
    - exfalso. assert (Hf : In o (filter (fun o => String.eqb (customer_id o) c) orders)).
      { apply filter_In. split; [exact Hin | now apply String.eqb_eq]. }
      rewrite E in Hf. destruct Hf.
    - reflexivity. }
  apply H. intros c Hc. now apply In_distinct.
Qed.

Lemma first_orders_NoDup orders : NoDup (map fo_customer_id (first_orders orders)).
Proof. rewrite first_orders_customers. apply NoDup_distinct. Qed.

Lemma first_order_is_minimum orders fo :
  In fo (first_orders orders) ->
  (exists o0, In o0 orders /\ customer_id o0 = fo_customer_id fo /\
              order_date o0 = first_order_date fo) /\
  (forall o, In o orders -> customer_id o = fo_customer_id fo ->
             date_leb (first_order_date fo) (order_date o) = true).
Proof.
  intros Hfo. destruct (In_first_orders _ _ Hfo) as [o [group [Hg [Hd _]]]].
  pose proof (fold_date_min_spec (map order_date group) (order_date o)) as Hmin.
  cbv zeta in Hmin. rewrite <- Hd in Hmin. destruct Hmin as [Hin Hle].
  change (order_date o :: map order_date group)
    with (map order_date (o :: group)) in Hin, Hle.
  rewrite <- Hg in Hin, Hle. split.
  - apply in_map_iff in Hin. destruct Hin as [o0 [Hdate Ho0]].
    apply filter_In in Ho0. destruct Ho0 as [Ho0 Hid]. apply String.eqb_eq in Hid.
    now exists o0.
  - intros o' Ho' Hid. apply Hle. apply in_map. apply filter_In.
    split; [exact Ho' | now apply String.eqb_eq].
Qed.

Lemma In_fct orders fos e :
  In e (fct orders fos) ->
  exists fo,
    In (eo_order e) orders /\ In fo fos /\
    fo_customer_id fo = customer_id (eo_order e) /\
    eo_cohort_month e = fo_cohort_month fo /\
    eo_acquisition_channel e = acquisition_channel fo /\
    months_since_cohort e =
    date_diff_month (date_trunc_month (first_order_date fo))
                    (date_trunc_month (order_date (eo_order e))).
Proof.
  unfold fct. intros H. apply in_flat_map in H. destruct H as [f [Hf H]].
  apply in_map_iff in H. destruct H as [fo [<- Hfo]].
  apply filter_In in Hfo. destruct Hfo as [Hfo Hid]. apply String.eqb_eq in Hid.
  exists fo. cbn [eo_order eo_cohort_month eo_acquisition_channel months_since_cohort].
  repeat split; auto.
Qed.

(** The join keeps every order exactly once. *)
Lemma fct_orders orders :
  map eo_order (fct orders (first_orders orders)) = orders.
Proof.
  unfold fct.
  assert (H : forall l, (forall f, In f l -> In f orders) ->
    map eo_order
      (flat_map
         (fun f =>
            map (fun fo =>
                   {| eo_order := f;
                      eo_cohort_month := fo_cohort_month fo;
                      eo_acquisition_channel := acquisition_channel fo;
                      months_since_cohort :=
                        date_diff_month (date_trunc_month (first_order_date fo))
                                        (date_trunc_month (order_date f)) |})
                (filter (fun fo => String.eqb (fo_customer_id fo) (customer_id f))
                        (first_orders orders))) l) = l).
  { induction l as [|f l IH]; intros Hl; simpl; [reflexivity|].
    rewrite map_app, IH by (intros; apply Hl; now right).
    rewrite (filter_key_unique String.eqb String.eqb_eq fo_customer_id _ _
                               (first_orders_NoDup orders)).
    destruct (find _ (first_orders orders)) as [fo|] eqn:E; [reflexivity|].
    exfalso. apply (find_key_None String.eqb String.eqb_eq fo_customer_id) in E.
    apply E. rewrite first_orders_customers. apply In_distinct.
    apply in_map. apply Hl. now left. }
  apply H. auto.
Qed.

(** C6.  In the enriched relation every order appears once, joined with
    its customer's first order, and [months_since_cohort] is a
    non-negative integer: the number of one-month steps that lead from
    the month of the first order to the month of the order, 0 exactly
    for an order placed in the acquisition month. *)
Theorem months_since_cohort_counts_months (orders : list Order) :
  forallb (fun o => valid_date (order_date o)) orders = true ->
  map eo_order (fct orders (first_orders orders)) = orders /\
  forall e, In e (fct orders (first_orders orders)) ->
    exists fo,
      In fo (first_orders orders) /\
      fo_customer_id fo = customer_id (eo_order e) /\
      eo_cohort_month e = strftime_Y_m (first_order_date fo) /\
      (exists o0, In o0 orders /\ customer_id o0 = customer_id (eo_order e) /\
                  order_date o0 = first_order_date fo) /\
      (forall o, In o orders -> customer_id o = customer_id (eo_order e) ->
                 date_leb (first_order_date fo) (order_date o) = true) /\
      0 <= months_since_cohort e /\
      Nat.iter (Z.to_nat (months_since_cohort e)) next_month
               (date_trunc_month (first_order_date fo))
      = date_trunc_month (order_date (eo_order e)) /\
      (months_since_cohort e = 0 <->
       year (order_date (eo_order e)) = year (first_order_date fo) /\
       month (order_date (eo_order e)) = month (first_order_date fo)).
Proof.
  intros Hvalid. rewrite forallb_forall in Hvalid.
  split; [apply fct_orders|].
  intros e He. destruct (In_fct _ _ _ He) as [fo [Hord [Hfo [Hid [Hcm [_ Hm]]]]]].
  destruct (first_order_is_minimum _ _ Hfo) as [[o0 [Ho0 [Hid0 Hd0]]] Hmin].
  destruct (In_first_orders _ _ Hfo) as [_ [_ [_ [_ [Hstr _]]]]].
  exists fo. rewrite <- Hid.
  split; [exact Hfo|]. split; [reflexivity|]. split; [congruence|].
  split; [now exists o0|]. split; [exact Hmin|].
  pose proof (valid_date_month _ (Hvalid _ Hord)) as Hvo.
  pose proof (valid_date_month _ (Hvalid _ Ho0)) as Hvf. rewrite Hd0 in Hvf.
  pose proof (Hmin _ Hord (eq_sym Hid)) as Hle. apply date_leb_iff in Hle.
  assert (Hdiff : months_since_cohort e =
                  (year (order_date (eo_order e)) - year (first_order_date fo)) * 12
                  + (month (order_date (eo_order e)) - month (first_order_date fo)))
    by (rewrite Hm; reflexivity).
  split; [lia|]. split; [|lia].
  pose proof (iter_next_month (Z.to_nat (months_since_cohort e))
                              (date_trunc_month (first_order_date fo))) as Hit.
  cbv zeta in Hit. cbn [date_trunc_month year month day] in Hit.
  destruct (Hit Hvf) as [Hmo [Hidx Hday]].
  apply date_eq; cbn [date_trunc_month year month day]; lia.
Qed.

Lemma months_since_cohort_counts_months_witness :
  map eo_order (fct sample_orders (first_orders sample_orders)) = sample_orders.
Proof.
  exact (proj1 (months_since_cohort_counts_months sample_orders eq_refl)).
Defined.

(** ** Cohort sizes *)

Lemma zsum_add {A : Type} (g h : A -> Z) (l : list A) :
  zsum (map (fun x => g x + h x) l) = zsum (map g l) + zsum (map h l).
Proof. induction l as [|x l IH]; simpl; [reflexivity|]. unfold zsum in *. simpl. lia. Qed.

Lemma zsum_indicator (a : string) (keys : list string) :
  NoDup keys -> In a keys ->
  zsum (map (fun m => if String.eqb a m then 1 else 0) keys) = 1.
Proof.
  induction 1 as [|k keys Hk Hnd IH]; intros Hin; [destruct Hin|].
  unfold zsum in *. simpl. destruct (String.eqb_spec a k) as [->|Hne].
  - assert (Hz : fold_right Z.add 0
                   (map (fun m => if String.eqb k m then 1 else 0) keys) = 0).
    { clear IH Hnd Hin. induction keys as [|k' keys IH']; simpl; [reflexivity|].
      destruct (String.eqb_spec k k') as [->|_].
      - exfalso. apply Hk. now left.
      - rewrite IH'; [reflexivity|]. intros H. apply Hk. now right. }
    lia.
  - destruct Hin as [->|Hin]; [contradiction|]. rewrite (IH Hin). lia.
Qed.

(** The sizes of the groups of a list add up to its length. *)
Lemma group_sizes_sum {A : Type} (f : A -> string) (keys : list string) (l : list A) :
  NoDup keys -> (forall x, In x l -> In (f x) keys) ->
  zsum (map (fun m => Z.of_nat (List.length
                                  (filter (fun x => String.eqb (f x) m) l))) keys)
  = Z.of_nat (List.length l).
Proof.
  intros Hnd. induction l as [|x l IH]; intros Hin.
  - simpl. clear. induction keys as [|k keys IH]; simpl; [reflexivity|].
    unfold zsum in *. simpl. lia.
  - rewrite (map_ext _
      (fun m => (if String.eqb (f x) m then 1 else 0)
                + Z.of_nat (List.length (filter (fun y => String.eqb (f y) m) l)))).
    + rewrite zsum_add, IH by (intros; apply Hin; now right).
      rewrite zsum_indicator; [|exact Hnd|apply Hin; now left].
      simpl List.length. lia.
    + intros m. simpl. destruct (String.eqb (f x) m); simpl List.length; lia.
Qed.

(** Keeping some rows of a frame keyed uniquely leaves it keyed
    uniquely. *)
Lemma filter_keeps_keys_unique {R : Type} (key : R -> string) (keep : R -> bool)
      (frame : list R) :
  NoDup (map key frame) -> NoDup (map key (filter keep frame)).
Proof.
  intros Huniq. induction frame as [|row frame IH]; [constructor|].
  cbn [map] in Huniq. apply NoDup_cons_iff in Huniq. destruct Huniq as [Hfresh Hrest].
  cbn [filter]. destruct (keep row); [|exact (IH Hrest)].
  cbn [map]. apply NoDup_cons; [|exact (IH Hrest)].
  intros Hdup. apply Hfresh. apply in_map_iff in Hdup.
  destruct Hdup as [other [Hkey Hother]]. apply filter_In in Hother.
  rewrite <- Hkey. apply in_map. exact (proj1 Hother).
Qed.

Lemma distinct_length_nodup (l : list string) :
  List.length (distinct l) = List.length (nodup string_dec l).
Proof.
  apply Nat.le_antisymm; apply NoDup_incl_length.
  - apply NoDup_distinct.
  - intros x Hx. apply nodup_In. now apply In_distinct.
  - apply NoDup_nodup.
  - intros x Hx. apply In_distinct. now apply nodup_In in Hx.
Qed.

(** C8.  The [new_customers] counts of [acq_counts] add up to the number
    of distinct customers of the orders. *)
Theorem cohort_sizes_sum_to_customers
        (orders : list Order) (spend : list SpendRecord) :
  let '(_, acq_counts, _) := build_mart_and_cohorts orders spend in
  zsum (map cs_new_customers acq_counts) = distinct_customers orders.
Proof.
  unfold build_mart_and_cohorts, acq_counts_of, distinct_customers.
  rewrite map_map. cbn [cs_new_customers].
  rewrite (map_ext _
    (fun m => Z.of_nat (List.length
                          (filter (fun fo => String.eqb (fo_cohort_month fo) m)
                                  (first_orders orders))))).
  - rewrite group_sizes_sum.
    + rewrite <- distinct_length_nodup, <- first_orders_customers.
      now rewrite length_map.
    + apply months_NoDup.
    + intros fo Hfo. apply In_months. now apply in_map.
  - intros m. rewrite distinct_NoDup_id, length_map; [reflexivity|].
    apply filter_keeps_keys_unique, first_orders_NoDup.
Qed.

(** ** [load_inputs]: the month column of the spend table *)

Lemma is_digit_digit (n : Z) : is_digit (digit n) = true.
Proof.
  unfold is_digit, digit.
  assert (H : 0 <= n mod 10 < 10) by (apply Z.mod_pos_bound; lia).
  assert (E : nat_of_ascii (ascii_of_nat (48 + Z.to_nat (n mod 10)))
              = (48 + Z.to_nat (n mod 10))%nat)
    by (apply nat_ascii_embedding; lia).
  rewrite E. apply andb_true_iff. split; apply Nat.leb_le; lia.
Qed.









(** ** [export_excel]: the summary frame *)

Lemma fold_max_spec (l : list Z) (k : Z) :
  let m := fold_left Z.max l k in
  In m (k :: l) /\ forall x, In x (k :: l) -> x <= m.
Proof.
  revert k. induction l as [|y l IH]; intros k; simpl.
  - split; [now left|]. intros x [<-|[]]. lia.
  - destruct (IH (Z.max k y)) as [Hin Hle]. simpl in Hin, Hle. split.
    + destruct Hin as [Hin|Hin]; [|now right; right].
      rewrite <- Hin. destruct (Z.max_spec k y) as [[_ ->]|[_ ->]]; auto.
    + intros x [<-|[<-|Hx]].
      * specialize (Hle (Z.max k y) (or_introl eq_refl)). lia.
      * specialize (Hle (Z.max k y) (or_introl eq_refl)). lia.
      * apply Hle. now right.
Qed.

(** The column that [export_excel] selects is the largest offset of the
    frame, and selecting it does not raise when the frame has columns. *)
Lemma export_excel_latest (ltv_cum : Grid) (cac_df : list CohortCAC) :
  columns ltv_cum <> [] ->
  In (latest_column (columns ltv_cum)) (columns ltv_cum) /\
  (forall k, In k (columns ltv_cum) -> k <= latest_column (columns ltv_cum)) /\
  exists summary, export_excel ltv_cum cac_df = Ok summary.
Proof.
  intros Hne. destruct (columns ltv_cum) as [|k cols] eqn:E; [contradiction|].
  pose proof (fold_max_spec cols k) as [Hin Hmax]. cbv zeta in *.
  split; [exact Hin|]. split; [exact Hmax|].
  unfold export_excel. rewrite E.
  destruct (index_of_In Z.eqb Z.eqb_eq _ _ Hin) as [j [Hj _]].
  cbn [latest_column]. rewrite Hj. eexists. reflexivity.
Qed.

(** Every summary row holds the plain quotient of its two cells; the
    quotient is [NaN] when CAC is [NaN]. *)
Lemma summary_ratio (ltv_cum : Grid) (cac_df : list CohortCAC)
      (summary : list SummaryRow) (s : SummaryRow) :
  export_excel ltv_cum cac_df = Ok summary -> In s summary ->
  LTV_to_CAC s = fdiv (LTV_latest s) (s_CAC s) /\
  (s_CAC s = NaN -> LTV_to_CAC s = NaN).
Proof.
  unfold export_excel. destruct (index_of _ _ _) as [j|]; [|discriminate].
  intros H Hs. inversion H; subst summary. clear H.
  apply in_flat_map in Hs. destruct Hs as [r [_ Hs]].
  unfold summary_rows_of in Hs.
  assert (Hrow : LTV_to_CAC s = fdiv (LTV_latest s) (s_CAC s)).
  { destruct (filter _ cac_df) as [|m ms].
    - destruct Hs as [<-|[]]. reflexivity.
    - apply in_map_iff in Hs. destruct Hs as [x [<- _]]. reflexivity. }
  split; [exact Hrow|]. intros Hnan. rewrite Hrow, Hnan. apply fdiv_nan_r.
Qed.

(** [LTV_latest] of a summary row is the cell of its cohort's row in the
    selected column. *)
Lemma summary_latest (ltv_cum : Grid) (cac_df : list CohortCAC)
      (summary : list SummaryRow) (s : SummaryRow) :
  export_excel ltv_cum cac_df = Ok summary -> In s summary ->
  exists j r,
    index_of Z.eqb (latest_column (columns ltv_cum)) (columns ltv_cum) = Some j /\
    In r (rows ltv_cum) /\
    s_cohort_month s = fst r /\
    LTV_latest s = nth j (snd r) NaN.
Proof.
  unfold export_excel. destruct (index_of _ _ _) as [j|]; [|discriminate].
  intros H Hs. inversion H; subst summary. clear H.
  apply in_flat_map in Hs. destruct Hs as [r [Hr Hs]].
  exists j, r. split; [reflexivity|]. split; [exact Hr|].
  unfold summary_rows_of in Hs. destruct (filter _ cac_df) as [|m ms].
  - destruct Hs as [<-|[]]. split; reflexivity.
  - apply in_map_iff in Hs. destruct Hs as [x [<- _]]. split; reflexivity.
Qed.

(** A positive value divided by a zero CAC is plus infinity. *)
Lemma fdiv_positive_by_zero (q : Qc) :
  Qc_is_zero q = false -> Qc_is_neg q = false -> fdiv (Fin q) fzero = Inf false.
Proof. intros Hz Hn. unfold fdiv, fzero. simpl. now rewrite Hz, Hn. Qed.

(** C4, at the failing input.  For a cohort with customers and no spend
    the pipeline computes CAC = 0 and then LTV_to_CAC = 100 / 0, which
    is plus infinity and not the undefined marker [NaN]. *)
Theorem ltv_to_cac_zero_cac_is_infinite :
  exists g s,
    pipeline zero_spend_orders [] = Ok (g, [s]) /\
    s_cohort_month s = "2023-01" /\
    LTV_latest s = of_int 100 /\
    s_CAC s = fzero /\
    LTV_to_CAC s = Inf false /\
    isna (LTV_to_CAC s) = false.
Proof.
  assert (H : single_row_check (pipeline zero_spend_orders []) = true)
    by (vm_compute; reflexivity).
  unfold single_row_check in H.
  destruct (pipeline zero_spend_orders []) as [[g [|s [|s' l]]]|e]; try discriminate.
  rewrite !andb_true_iff in H. destruct H as [[[Hm Hl] Hc] Hi].
  apply String.eqb_eq in Hm. apply feqb_eq in Hl. apply feqb_eq in Hc.
  exists g, s. split; [reflexivity|].
  destruct (LTV_to_CAC s) as [|[|]|q]; try discriminate. auto.
Qed.

(* ================================================================== *)
(** * Further properties of the pipeline *)

(** ** [ltv_tables]: errors and the shape of the result *)

(** Every left row of the join yields at least one row, and each row it
    yields carries the left row's key and revenue. *)
Lemma merge_left_one_rows acq_counts r :
  (exists x rest, merge_left_one acq_counts r = x :: rest) /\
  forall y, In y (merge_left_one acq_counts r) ->
    lr_key y = cr_key r /\ lr_revenue y = cr_revenue r /\
    (lr_new_customers y = NaN \/ exists n, lr_new_customers y = of_int n).
Proof.
  unfold merge_left_one.
  destruct (filter _ acq_counts) as [|a ms].
  - split; [eauto|]. intros y [<-|[]]. cbn. auto.
  - split; [cbn [map]; eauto|]. intros y Hy.
    apply in_map_iff in Hy. destruct Hy as [a' [<- _]]. cbn. eauto.
Qed.

Lemma In_merge_left cohort_rev acq_counts y :
  In y (merge_left cohort_rev acq_counts) ->
  exists r, In r cohort_rev /\ lr_key y = cr_key r /\ lr_revenue y = cr_revenue r /\
            (lr_new_customers y = NaN \/ exists n, lr_new_customers y = of_int n).
Proof.
  unfold merge_left. intros H. apply in_flat_map in H. destruct H as [r [Hr Hy]].
  exists r. split; [exact Hr|]. now apply (proj2 (merge_left_one_rows acq_counts r)).
Qed.

Lemma merge_left_covers cohort_rev acq_counts r :
  In r cohort_rev ->
  exists y, In y (merge_left cohort_rev acq_counts) /\ lr_key y = cr_key r.
Proof.
  intros Hr. destruct (merge_left_one_rows acq_counts r) as [[x [rest Hx]] Hall].
  exists x. split.
  - unfold merge_left. apply in_flat_map. exists r. split; [exact Hr|].
    rewrite Hx. now left.
  - apply Hall. rewrite Hx. now left.
Qed.

(** Distinct keys after the join force distinct keys before it. *)
Lemma merged_keys_NoDup cohort_rev acq_counts :
  NoDup (map lr_key (merge_left cohort_rev acq_counts)) ->
  NoDup (map cr_key cohort_rev).
Proof.
  unfold merge_left. induction cohort_rev as [|r l IH]; intros H; [constructor|].
  cbn [flat_map map] in *. rewrite map_app in H.
  constructor; [|exact (IH (NoDup_app_remove_l _ _ H))].
  intros Hin. apply in_map_iff in Hin. destruct Hin as [r' [Hk Hr']].
  destruct (merge_left_one_rows acq_counts r) as [[x [rest Hx]] Hall].
  destruct (merge_left_covers l acq_counts r' Hr') as [y [Hy Hky]].
  rewrite Hx in H. cbn [map app] in H. apply NoDup_cons_iff in H.
  apply (proj1 H). apply in_or_app. right.
  assert (Hkx : lr_key x = cr_key r) by (apply Hall; rewrite Hx; now left).
  rewrite Hkx, <- Hk, <- Hky. now apply in_map.
Qed.

Lemma merged_group_NoDup cohort_rev acq_counts r :
  In r cohort_rev ->
  NoDup (map lr_key (merge_left cohort_rev acq_counts)) ->
  NoDup (map lr_key (merge_left_one acq_counts r)).
Proof.
  intros Hr H. destruct (in_split _ _ Hr) as [l1 [l2 ->]].
  unfold merge_left in H. rewrite flat_map_app, map_app in H.
  apply NoDup_app_remove_l in H. cbn [flat_map] in H. rewrite map_app in H.
  exact (NoDup_app_remove_r _ _ H).
Qed.

Lemma pivot_duplicated values l :
  duplicated key_eqb (map lr_key l) = true -> pivot values l = Raise ValueError.
Proof. intros H. unfold pivot. now rewrite H. Qed.

Lemma duplicated_true_not_NoDup (keys : list (string * Z)) :
  ~ NoDup keys -> duplicated key_eqb keys = true.
Proof.
  intros H. destruct (duplicated key_eqb keys) eqn:E; [reflexivity|].
  exfalso. apply H. now apply (duplicated_false key_eqb key_eqb_spec).
Qed.

(** X1.  A (cohort_month, months_since_cohort) pair that occurs twice in
    [cohort_rev] makes [ltv_tables] raise [ValueError], whatever
    [acq_counts] holds. *)
Theorem ltv_tables_repeated_revenue_key_raises
        (cohort_rev : list CohortRevenue) (acq_counts : list CohortSize) :
  duplicated key_eqb (map cr_key cohort_rev) = true ->
  ltv_tables cohort_rev acq_counts = Raise ValueError.
Proof.
  intros Hdup. unfold ltv_tables, ltv_pivot.
  rewrite pivot_duplicated; [reflexivity|].
  apply duplicated_true_not_NoDup. intros Hnd.
  apply merged_keys_NoDup in Hnd.
  apply (duplicated_false key_eqb key_eqb_spec) in Hnd. congruence.
Qed.

Lemma ltv_tables_repeated_revenue_key_raises_witness :
  ltv_tables (test_cohort_rev ++ test_cohort_rev) test_acq = Raise ValueError.
Proof.
  apply ltv_tables_repeated_revenue_key_raises. reflexivity.
Defined.

(** X2.  A cohort that has a revenue row and two or more rows in
    [acq_counts] makes [ltv_tables] raise [ValueError]: the join repeats
    the revenue row once per size row. *)
Theorem ltv_tables_repeated_size_row_raises
        (cohort_rev : list CohortRevenue) (acq_counts : list CohortSize) :
  existsb (fun r => (2 <=? size_rows_matching acq_counts r)%nat) cohort_rev = true ->
  ltv_tables cohort_rev acq_counts = Raise ValueError.
Proof.
  intros Hex. apply existsb_exists in Hex. destruct Hex as [r [Hr Hn]].
  apply Nat.leb_le in Hn. unfold size_rows_matching in Hn.
  unfold ltv_tables, ltv_pivot.
  rewrite pivot_duplicated; [reflexivity|].
  apply duplicated_true_not_NoDup. intros Hnd.
  apply (merged_group_NoDup _ _ r Hr) in Hnd.
  unfold merge_left_one in Hnd.
  destruct (filter _ acq_counts) as [|a [|b ms]]; simpl in Hn; try lia.
  cbn [map lr_key lr_cohort_month lr_months_since_cohort] in Hnd.
  apply NoDup_cons_iff in Hnd. apply (proj1 Hnd). now left.
Qed.

Lemma ltv_tables_repeated_size_row_raises_witness :
  ltv_tables test_cohort_rev (test_acq ++ test_acq) = Raise ValueError.
Proof.
  apply ltv_tables_repeated_size_row_raises. reflexivity.
Defined.

Lemma ltv_tables_returned cohort_rev acq_counts g :
  ltv_tables cohort_rev acq_counts = Ok g ->
  g = {| columns := sort_unique Z.compare
                      (map lr_months_since_cohort (merge_left cohort_rev acq_counts));
         rows :=
           map (fun c =>
                  (c, cumsum_row
                        (map (fun k => fillna_0
                                         (pivot_cell ltv_value
                                            (merge_left cohort_rev acq_counts) c k))
                             (sort_unique Z.compare
                                (map lr_months_since_cohort
                                     (merge_left cohort_rev acq_counts))))))
               (sort_unique String.compare
                  (map lr_cohort_month (merge_left cohort_rev acq_counts))) |}.
Proof.
  unfold ltv_tables, ltv_pivot, pivot.
  destruct (duplicated key_eqb _); [discriminate|].
  intros H. inversion H. clear H. subst g.
  unfold cumsum, sort_index, fillna. cbn [columns rows]. f_equal.
  rewrite (sort_rows_sorted String.compare).
  - rewrite !map_map. cbn [fst snd]. apply map_ext. intros c.
    now rewrite map_map.
  - rewrite !map_map. cbn [fst]. rewrite map_id. apply months_sorted.
Qed.

Lemma ltv_tables_raises_only_ValueError cohort_rev acq_counts e :
  ltv_tables cohort_rev acq_counts = Raise e -> e = ValueError.
Proof.
  unfold ltv_tables, ltv_pivot, pivot.
  destruct (duplicated key_eqb _); [|discriminate]. congruence.
Qed.

Lemma merged_offsets cohort_rev acq_counts k :
  In k (map lr_months_since_cohort (merge_left cohort_rev acq_counts))
  <-> In k (map cr_months_since_cohort cohort_rev).
Proof.
  rewrite !in_map_iff. split.
  - intros [y [<- Hy]]. destruct (In_merge_left _ _ _ Hy) as [r [Hr [Hk _]]].
    exists r. split; [|exact Hr]. now inversion Hk.
  - intros [r [<- Hr]]. destruct (merge_left_covers _ acq_counts _ Hr) as [y [Hy Hk]].
    exists y. split; [|exact Hy]. now inversion Hk.
Qed.

Lemma merged_cohorts cohort_rev acq_counts c :
  In c (map lr_cohort_month (merge_left cohort_rev acq_counts))
  <-> In c (map cr_cohort_month cohort_rev).
Proof.
  rewrite !in_map_iff. split.
  - intros [y [<- Hy]]. destruct (In_merge_left _ _ _ Hy) as [r [Hr [Hk _]]].
    exists r. split; [|exact Hr]. now inversion Hk.
  - intros [r [<- Hr]]. destruct (merge_left_covers _ acq_counts _ Hr) as [y [Hy Hk]].
    exists y. split; [|exact Hy]. now inversion Hk.
Qed.

(** X3.  [ltv_tables] either raises [ValueError] or returns a
    well-formed grid: column labels strictly increasing, row labels
    strictly increasing, as many cells in every row as there are
    columns, and exactly the offsets and the cohort months of
    [cohort_rev] as labels. *)
Theorem ltv_tables_well_formed
        (cohort_rev : list CohortRevenue) (acq_counts : list CohortSize) :
  match ltv_tables cohort_rev acq_counts with
  | Raise e => e = ValueError
  | Ok g =>
      StronglySorted Z.lt (columns g) /\
      StronglySorted (cmp_lt String.compare) (grid_index g) /\
      (forall r, In r (rows g) -> List.length (snd r) = List.length (columns g)) /\
      (forall k, In k (columns g) <-> In k (map cr_months_since_cohort cohort_rev)) /\
      (forall c, In c (grid_index g) <-> In c (map cr_cohort_month cohort_rev))
  end.
Proof.
  destruct (ltv_tables cohort_rev acq_counts) as [g|e] eqn:E.
  2:{ exact (ltv_tables_raises_only_ValueError _ _ _ E). }
  rewrite (ltv_tables_returned _ _ _ E). unfold grid_index. cbn [columns rows].
  rewrite !map_map. cbn [fst]. rewrite map_id.
  split; [apply columns_sorted|]. split; [apply months_sorted|]. split; [|split].
  - intros r Hr. apply in_map_iff in Hr. destruct Hr as [c [<- _]]. cbn [snd].
    unfold cumsum_row. now rewrite cumsum_from_length, length_map.
  - intros k. rewrite In_columns. apply merged_offsets.
  - intros c. rewrite In_months. apply merged_cohorts.
Qed.

Lemma cumsum_from_notna (l : list float64) :
  Forall (fun x => is_finite x = true) l ->
  forall acc, isna acc = false ->
              Forall (fun x => isna x = false) (cumsum_from acc l).
Proof.
  induction 1 as [|x l Hx Hl IH]; intros acc Hacc; cbn [cumsum_from]; [constructor|].
  destruct x as [| |q]; try discriminate. cbn [isna].
  assert (Hsum : isna (fadd acc (Fin q)) = false)
    by (destruct acc; [discriminate Hacc | reflexivity | reflexivity]).
  constructor; [exact Hsum|]. now apply IH.
Qed.

Lemma ltv_value_finite_or_nan (y : LtvRow) :
  is_finite (lr_revenue y) = true ->
  (lr_new_customers y = NaN \/ exists n, lr_new_customers y = of_int n) ->
  is_finite (fillna_0 (ltv_value y)) = true.
Proof.
  unfold ltv_value. intros Hrev Hn.
  destruct (lr_revenue y) as [| |q]; try discriminate.
  destruct Hn as [->|[n ->]]; [reflexivity|].
  rewrite replace_0_nan_of_int. destruct (n =? 0) eqn:En; [reflexivity|].
  apply Z.eqb_neq in En. unfold of_int, fdiv.
  pose proof (of_int_nonzero n En) as Hq. apply Qc_is_zero_false in Hq.
  now rewrite Hq.
Qed.

(** X4.  When every revenue of [cohort_rev] is a finite number, no cell
    of the grid that [ltv_tables] returns is the undefined marker [NaN],
    whatever [acq_counts] holds (zero counts and missing cohorts
    included): an undefined quotient is filled with 0 before the
    accumulation, and a running total of finite cells never turns into
    [NaN]. *)
Theorem ltv_tables_cells_never_nan
        (cohort_rev : list CohortRevenue) (acq_counts : list CohortSize) :
  forallb (fun r => is_finite (cr_revenue r)) cohort_rev = true ->
  match ltv_tables cohort_rev acq_counts with
  | Raise _ => True
  | Ok g => forall r x, In r (rows g) -> In x (snd r) -> isna x = false
  end.
Proof.
  intros Hfin. rewrite forallb_forall in Hfin.
  destruct (ltv_tables cohort_rev acq_counts) as [g|e] eqn:E; [|exact I].
  rewrite (ltv_tables_returned _ _ _ E). cbn [rows].
  intros r x Hr Hx. apply in_map_iff in Hr. destruct Hr as [c [<- _]]. cbn [snd] in Hx.
  revert x Hx. apply Forall_forall. unfold cumsum_row.
  apply cumsum_from_notna; [|reflexivity].
  apply Forall_forall. intros x Hx. apply in_map_iff in Hx. destruct Hx as [k [<- _]].
  unfold pivot_cell.
  destruct (find _ (merge_left cohort_rev acq_counts)) as [y|] eqn:Ef; [|reflexivity].
  apply find_some in Ef. destruct Ef as [Hy _].
  destruct (In_merge_left _ _ _ Hy) as [r0 [Hr0 [_ [Hrev Hn]]]].
  apply ltv_value_finite_or_nan; [|exact Hn].
  rewrite Hrev. now apply Hfin.
Qed.

Lemma ltv_tables_cells_never_nan_witness :
  match ltv_tables unmatched_cohort_rev test_acq with
  | Raise _ => True
  | Ok g => forall r x, In r (rows g) -> In x (snd r) -> isna x = false
  end.
Proof.
  apply ltv_tables_cells_never_nan. reflexivity.
Defined.

(** ** [export_excel]: when it raises, and what it returns *)

Lemma returned_columns_empty cohort_rev acq_counts g :
  ltv_tables cohort_rev acq_counts = Ok g ->
  (columns g = [] <-> cohort_rev = []).
Proof.
  intros E. rewrite (ltv_tables_returned _ _ _ E). cbn [columns]. split.
  - intros Hc. destruct cohort_rev as [|r l]; [reflexivity|]. exfalso.
    assert (Hin : In (cr_months_since_cohort r)
                     (sort_unique Z.compare
                        (map lr_months_since_cohort (merge_left (r :: l) acq_counts)))).
    { apply In_columns, merged_offsets. now left. }
    rewrite Hc in Hin. destruct Hin.
  - intros ->. reflexivity.
Qed.

(** X5.  With no revenue rows [ltv_tables] returns the grid without
    rows and columns.  On a grid returned by [ltv_tables], line 107 of
    [export_excel] raises [KeyError] exactly when [cohort_rev] has no
    rows: the fallback label 0 of line 106 is not a column of the empty
    grid. *)
Theorem export_excel_KeyError_iff_no_revenue
        (cohort_rev : list CohortRevenue) (acq_counts : list CohortSize)
        (cac_df : list CohortCAC) :
  ltv_tables [] acq_counts = Ok {| columns := []; rows := [] |} /\
  match ltv_tables cohort_rev acq_counts with
  | Raise _ => True
  | Ok g => export_excel g cac_df = Raise KeyError <-> cohort_rev = []
  end.
Proof.
  split; [reflexivity|].
  destruct (ltv_tables cohort_rev acq_counts) as [g|e] eqn:E; [|exact I].
  pose proof (returned_columns_empty _ _ _ E) as Hcols.
  destruct (columns g) as [|k cols] eqn:Ec.
  - split; [intros _; now apply Hcols|]. intros _.
    unfold export_excel. rewrite Ec. reflexivity.
  - assert (Hne : columns g <> []) by (rewrite Ec; discriminate).
    destruct (export_excel_latest g cac_df Hne) as [_ [_ [summary Hs]]].
    rewrite Hs. split; [discriminate|].
    intros H. apply Hcols in H. congruence.
Qed.

Lemma summary_rows_of_single cac_df c v :
  NoDup (map cac_cohort_month cac_df) ->
  summary_rows_of cac_df c v =
  [ {| s_cohort_month := c; LTV_latest := v;
       s_CAC := joined_cac cac_df c;
       LTV_to_CAC := fdiv v (joined_cac cac_df c) |} ].
Proof.
  intros Hnd. unfold summary_rows_of, joined_cac.
  rewrite (filter_key_unique String.eqb String.eqb_eq cac_cohort_month _ _ Hnd).
  destruct (find _ cac_df); reflexivity.
Qed.

Lemma export_excel_keyed (ltv_cum : Grid) (cac_df : list CohortCAC)
      (summary : list SummaryRow) :
  NoDup (map cac_cohort_month cac_df) ->
  export_excel ltv_cum cac_df = Ok summary ->
  map s_cohort_month summary = grid_index ltv_cum /\
  forall s, In s summary ->
            s_CAC s = joined_cac cac_df (s_cohort_month s) /\
            LTV_to_CAC s = fdiv (LTV_latest s) (joined_cac cac_df (s_cohort_month s)).
Proof.
  intros Hnd. unfold export_excel.
  destruct (index_of Z.eqb _ (columns ltv_cum)) as [j|]; [|discriminate].
  intros H. inversion H. clear H.
  rewrite (flat_map_singleton _
    (fun r => {| s_cohort_month := fst r; LTV_latest := nth j (snd r) NaN;
                 s_CAC := joined_cac cac_df (fst r);
                 LTV_to_CAC := fdiv (nth j (snd r) NaN) (joined_cac cac_df (fst r)) |})).
  - split.
    + rewrite map_map. reflexivity.
    + intros s Hs. apply in_map_iff in Hs. destruct Hs as [r [<- _]]. cbn. auto.
  - intros r _. now apply summary_rows_of_single.
Qed.

(** X6.  When [cac_df] has one row per cohort month, the summary that
    [export_excel] returns has exactly one row per row of the grid, in
    the same order; the CAC of a row is the CAC of the cohort's row of
    [cac_df], or [NaN] when [cac_df] has no row for the cohort, and its
    LTV_to_CAC is the quotient of LTV_latest by that CAC. *)
Theorem export_excel_one_row_per_cohort (ltv_cum : Grid) (cac_df : list CohortCAC) :
  duplicated String.eqb (map cac_cohort_month cac_df) = false ->
  match export_excel ltv_cum cac_df with
  | Raise _ => True
  | Ok summary =>
      map s_cohort_month summary = grid_index ltv_cum /\
      forall s, In s summary ->
                s_CAC s = joined_cac cac_df (s_cohort_month s) /\
                LTV_to_CAC s = fdiv (LTV_latest s) (joined_cac cac_df (s_cohort_month s))
  end.
Proof.
  intros Hnd. apply (duplicated_false String.eqb String.eqb_eq) in Hnd.
  destruct (export_excel ltv_cum cac_df) as [summary|e] eqn:E; [|exact I].
  exact (export_excel_keyed _ _ _ Hnd E).
Qed.

Lemma export_excel_one_row_per_cohort_witness :
  match export_excel {| columns := [0]; rows := [("2023-01", [of_int 10])] |}
                     (cohort_cac sample_acq sample_spend) with
  | Raise _ => True
  | Ok summary =>
      map s_cohort_month summary = ["2023-01"] /\
      forall s, In s summary ->
                s_CAC s = joined_cac (cohort_cac sample_acq sample_spend) (s_cohort_month s) /\
                LTV_to_CAC s = fdiv (LTV_latest s)
                                    (joined_cac (cohort_cac sample_acq sample_spend)
                                                (s_cohort_month s))
  end.
Proof.
  exact (export_excel_one_row_per_cohort
           {| columns := [0]; rows := [("2023-01", [of_int 10])] |}
           (cohort_cac sample_acq sample_spend) eq_refl).
Defined.

(** ** The frames of [build_mart_and_cohorts] *)

Lemma key_compare_eq (a b : string * Z) : key_compare a b = Eq <-> a = b.
Proof.
  destruct a as [s k], b as [t j]. unfold key_compare. cbn [fst snd].
  destruct (String.compare s t) eqn:E.
  - apply String_as_OT.cmp_eq in E. subst t. rewrite Z.compare_eq_iff.
    split; [intros ->; reflexivity | intros H; now inversion H].
  - split; [discriminate|]. intros H. inversion H; subst.
    assert (E' : String.compare t t = Eq) by now apply String_as_OT.cmp_eq.
    congruence.
  - split; [discriminate|]. intros H. inversion H; subst.
    assert (E' : String.compare t t = Eq) by now apply String_as_OT.cmp_eq.
    congruence.
Qed.

Lemma key_compare_antisym (a b : string * Z) :
  key_compare a b = CompOpp (key_compare b a).
Proof.
  destruct a as [s k], b as [t j]. unfold key_compare. cbn [fst snd].
  pose proof (String_as_OT.cmp_antisym s t) as Hst. unfold String_as_OT.cmp in Hst.
  rewrite Hst.
  destruct (String.compare t s); cbn [CompOpp];
    [apply Z.compare_antisym | reflexivity | reflexivity].
Qed.

Lemma key_compare_trans (a b c : string * Z) :
  key_compare a b = Lt -> key_compare b c = Lt -> key_compare a c = Lt.
Proof.
  destruct a as [s k], b as [t j], c as [u i]. unfold key_compare. cbn [fst snd].
  destruct (String.compare s t) eqn:E1; try discriminate;
    destruct (String.compare t u) eqn:E2; try discriminate; intros H1 H2.
  - apply String_as_OT.cmp_eq in E1, E2. subst t u.
    assert (E : String.compare s s = Eq) by now apply String_as_OT.cmp_eq.
    rewrite E. exact (Z_compare_trans _ _ _ H1 H2).
  - apply String_as_OT.cmp_eq in E1. subst t. now rewrite E2.
  - apply String_as_OT.cmp_eq in E2. subst u. now rewrite E1.
  - now rewrite (string_compare_trans _ _ _ E1 E2).
Qed.

Lemma cohort_rev_keys (rows : list EnrichedOrder) :
  map cr_key (cohort_rev_of rows) = sort_unique key_compare (map eo_key rows).
Proof.
  unfold cohort_rev_of. rewrite map_map. unfold cr_key.
  cbn [cr_cohort_month cr_months_since_cohort].
  rewrite <- (map_id (sort_unique key_compare (map eo_key rows))) at 2.
  apply map_ext. intros [c k]. reflexivity.
Qed.

Lemma acq_counts_keys (fos : list FirstOrder) :
  map cs_cohort_month (acq_counts_of fos)
  = sort_unique String.compare (map fo_cohort_month fos).
Proof.
  unfold acq_counts_of. rewrite map_map. cbn [cs_cohort_month]. apply map_id.
Qed.

Lemma keys_sorted (keys : list (string * Z)) :
  StronglySorted (cmp_lt key_compare) (sort_unique key_compare keys).
Proof.
  apply sort_unique_sorted.
  - apply key_compare_eq.
  - apply key_compare_antisym.
  - apply key_compare_trans.
Qed.

Lemma build_mart_keyed_uniquely (orders : list Order) :
  keyed_uniquely (cohort_rev_of (fct orders (first_orders orders)))
                 (acq_counts_of (first_orders orders)) = true.
Proof.
  unfold keyed_uniquely. apply andb_true_iff. split; apply negb_true_iff.
  - apply (duplicated_false key_eqb key_eqb_spec).
    apply (sorted_NoDup key_compare key_compare_eq).
    rewrite cohort_rev_keys. apply keys_sorted.
  - apply (duplicated_false String.eqb String.eqb_eq).
    rewrite acq_counts_keys. apply months_NoDup.
Qed.

(** X7.  The frames returned by [build_mart_and_cohorts] come out in
    the order of their [ORDER BY]: [cohort_rev] strictly increasing in
    (cohort_month, months_since_cohort) and [acq_counts] strictly
    increasing in cohort_month; [cac] has the cohort months of
    [acq_counts], row for row.  Both frames are therefore keyed
    uniquely, and [ltv_tables] applied to them returns a grid and never
    raises. *)
Theorem build_mart_frames_ordered (orders : list Order) (spend : list SpendRecord) :
  let '(cohort_rev, acq_counts, cac) := build_mart_and_cohorts orders spend in
  StronglySorted (cmp_lt key_compare) (map cr_key cohort_rev) /\
  StronglySorted (cmp_lt String.compare) (map cs_cohort_month acq_counts) /\
  map cac_cohort_month cac = map cs_cohort_month acq_counts /\
  keyed_uniquely cohort_rev acq_counts = true /\
  exists g, ltv_tables cohort_rev acq_counts = Ok g.
Proof.
  unfold build_mart_and_cohorts.
  set (fos := first_orders orders).
  assert (Hrev : StronglySorted (cmp_lt key_compare)
                   (map cr_key (cohort_rev_of (fct orders fos))))
    by (rewrite cohort_rev_keys; apply keys_sorted).
  assert (Hacq : StronglySorted (cmp_lt String.compare)
                   (map cs_cohort_month (acq_counts_of fos)))
    by (rewrite acq_counts_keys; apply months_sorted).
  pose proof (build_mart_keyed_uniquely orders) as Hu. fold fos in Hu.
  split; [exact Hrev|]. split; [exact Hacq|].
  split; [rewrite cohort_cac_rows, map_map; reflexivity|].
  split; [exact Hu|].
  eexists. exact (ltv_tables_shape _ _ Hu).
Qed.

Lemma fct_joined orders fos f fo :
  In f orders -> In fo fos -> fo_customer_id fo = customer_id f ->
  exists e, In e (fct orders fos) /\
            eo_order e = f /\ eo_cohort_month e = fo_cohort_month fo /\
            months_since_cohort e =
            date_diff_month (date_trunc_month (first_order_date fo))
                            (date_trunc_month (order_date f)).
Proof.
  intros Hf Hfo Hid. eexists. split.
  - unfold fct. apply in_flat_map. exists f. split; [exact Hf|].
    apply in_map. apply filter_In. split; [exact Hfo | now apply String.eqb_eq].
  - cbn. auto.
Qed.

Lemma In_cohort_rev_keys (rows : list EnrichedOrder) (key : string * Z) :
  In key (map cr_key (cohort_rev_of rows)) <-> In key (map eo_key rows).
Proof.
  rewrite cohort_rev_keys. apply In_sort_unique, key_compare_eq.
Qed.

(** A cohort of [first_orders] has a revenue row at offset 0: the first
    order itself. *)
Lemma first_order_offset_zero orders fo :
  In fo (first_orders orders) ->
  In (fo_cohort_month fo, 0)
     (map cr_key (cohort_rev_of (fct orders (first_orders orders)))).
Proof.
  intros Hfo. destruct (first_order_is_minimum _ _ Hfo) as [[o0 [Ho0 [Hid Hd]]] _].
  destruct (fct_joined orders _ o0 fo Ho0 Hfo (eq_sym Hid)) as [e [He [_ [Hcm Hm]]]].
  apply In_cohort_rev_keys. apply in_map_iff. exists e. split; [|exact He].
  unfold eo_key. rewrite Hcm, Hm, Hd. f_equal.
  unfold date_diff_month. lia.
Qed.

Lemma revenue_cohorts_are_size_cohorts orders c :
  In c (map cr_cohort_month (cohort_rev_of (fct orders (first_orders orders))))
  <-> In c (map cs_cohort_month (acq_counts_of (first_orders orders))).
Proof.
  rewrite acq_counts_keys, In_months. split.
  - intros H. apply in_map_iff in H. destruct H as [r [<- Hr]].
    assert (Hk : In (cr_key r)
                    (map cr_key (cohort_rev_of (fct orders (first_orders orders)))))
      by now apply in_map.
    apply In_cohort_rev_keys in Hk. apply in_map_iff in Hk.
    destruct Hk as [e [Hkey He]]. destruct (In_fct _ _ _ He) as [fo [_ [Hfo [_ [Hcm _]]]]].
    apply (f_equal fst) in Hkey. cbn [fst eo_key cr_key] in Hkey.
    rewrite <- Hkey, Hcm. now apply in_map.
  - intros H. apply in_map_iff in H. destruct H as [fo [<- Hfo]].
    pose proof (first_order_offset_zero _ _ Hfo) as Hz.
    apply in_map_iff in Hz. destruct Hz as [r [Hkey Hr]].
    apply (f_equal fst) in Hkey. cbn [fst cr_key] in Hkey.
    rewrite <- Hkey. now apply in_map.
Qed.

(** ** Month labels *)

Lemma nat_of_digit (n : Z) :
  nat_of_ascii (digit n) = (48 + Z.to_nat (n mod 10))%nat.
Proof.
  unfold digit.
  assert (H : 0 <= n mod 10 < 10) by (apply Z.mod_pos_bound; lia).
  apply nat_ascii_embedding. lia.
Qed.

Lemma digit_inj (a b : Z) : digit a = digit b -> a mod 10 = b mod 10.
Proof.
  intros H. apply (f_equal nat_of_ascii) in H. rewrite !nat_of_digit in H.
  assert (Ha : 0 <= a mod 10 < 10) by (apply Z.mod_pos_bound; lia).
  assert (Hb : 0 <= b mod 10 < 10) by (apply Z.mod_pos_bound; lia).
  lia.
Qed.

Lemma string_cons_inj (a b : ascii) (s t : string) :
  String a s = String b t -> a = b /\ s = t.
Proof. intros H. injection H as Ha Hs. auto. Qed.

Lemma two_digit_month (m : Z) :
  1 <= m <= 12 ->
  let v := (10 * (nat_of_ascii (digit (m / 10)) - 48)
            + (nat_of_ascii (digit m) - 48))%nat in
  (1 <=? v)%nat && (v <=? 12)%nat = true.
Proof.
  intros Hm. cbv zeta. rewrite !nat_of_digit.
  assert (H : m = 1 \/ m = 2 \/ m = 3 \/ m = 4 \/ m = 5 \/ m = 6 \/ m = 7 \/ m = 8
              \/ m = 9 \/ m = 10 \/ m = 11 \/ m = 12) by lia.
  repeat (destruct H as [->|H]; [reflexivity|]). subst m. reflexivity.
Qed.

(** The ['%Y-%m'] rendering of a date with a valid month has the
    canonical form. *)
Lemma strftime_canonical (d : date) :
  1 <= month d <= 12 -> canonical_year_month (strftime_Y_m d) = true.
Proof.
  intros Hm. unfold strftime_Y_m, canonical_year_month.
  rewrite !is_digit_digit. rewrite Ascii.eqb_refl. cbn [andb].
  exact (two_digit_month (month d) Hm).
Qed.

Lemma valid_raw_orders (orders_csv : list RawOrder) (spend_csv : list RawSpend)
      (check : date -> bool) (orders : list Order) (spend : list SpendRecord) (o : Order) :
  forallb (fun r => check (ro_order_date r)) orders_csv = true ->
  load_inputs orders_csv spend_csv = Ok (orders, spend) ->
  In o orders ->
  check (order_date o) = true /\ order_month o = strftime_Y_m (order_date o).
Proof.
  intros Hv E. rewrite forallb_forall in Hv. unfold load_inputs in E. cbv zeta in E.
  set (parsed := map _ orders_csv) in E.
  assert (Hparsed : In o parsed ->
                    check (order_date o) = true /\ order_month o = strftime_Y_m (order_date o)).
  { intros Ho. apply in_map_iff in Ho. destruct Ho as [r [<- Hr]]. cbn.
    split; [now apply Hv | reflexivity]. }
  destruct orders_csv as [|r0 rest]; [discriminate|].
  injection E as <- _. exact Hparsed.
Qed.

Lemma load_inputs_raises (orders_csv : list RawOrder) (spend_csv : list RawSpend) (e : exn) :
  load_inputs orders_csv spend_csv = Raise e -> e = AttributeError /\ orders_csv = [].
Proof.
  unfold load_inputs. destruct orders_csv; [|discriminate].
  intros H. inversion H. split; reflexivity.
Qed.

Lemma first_order_date_valid (orders : list Order) (check : date -> bool) (fo : FirstOrder) :
  (forall o, In o orders -> check (order_date o) = true) ->
  In fo (first_orders orders) -> check (first_order_date fo) = true.
Proof.
  intros Hv Hfo. destruct (first_order_is_minimum _ _ Hfo) as [[o0 [Ho0 [_ Hd]]] _].
  rewrite <- Hd. now apply Hv.
Qed.

(** X11.  When the parsed order dates are valid, [load_inputs] raises
    only on an orders table without rows, and otherwise gives every
    order an [order_month] in the canonical form "YYYY-MM" (the
    rendering of its [order_date]), and every cohort month that
    [build_mart_and_cohorts] reports has that form too. *)
Theorem month_labels_canonical (orders_csv : list RawOrder) (spend_csv : list RawSpend) :
  forallb (fun r => valid_date (ro_order_date r)) orders_csv = true ->
  match load_inputs orders_csv spend_csv with
  | Raise e => e = AttributeError /\ orders_csv = []
  | Ok (orders, spend) =>
      let '(cohort_rev, acq_counts, cac) := build_mart_and_cohorts orders spend in
      (forall o, In o orders ->
                 order_month o = strftime_Y_m (order_date o) /\
                 canonical_year_month (order_month o) = true) /\
      (forall a, In a acq_counts -> canonical_year_month (cs_cohort_month a) = true) /\
      (forall r, In r cohort_rev -> canonical_year_month (cr_cohort_month r) = true) /\
      (forall row, In row cac -> canonical_year_month (cac_cohort_month row) = true)
  end.
Proof.
  intros Hv.
  destruct (load_inputs orders_csv spend_csv) as [[orders spend]|e] eqn:E;
    [|now apply (load_inputs_raises orders_csv spend_csv)].
  pose proof (fun o => valid_raw_orders orders_csv spend_csv valid_date orders spend o Hv E)
    as Hload.
  assert (Hvalid : forall o, In o orders -> valid_date (order_date o) = true)
    by (intros o Ho; apply (Hload o Ho)).
  assert (Hacq : forall a, In a (acq_counts_of (first_orders orders)) ->
                           canonical_year_month (cs_cohort_month a) = true).
  { intros a Ha.
    assert (Hm : In (cs_cohort_month a)
                    (map cs_cohort_month (acq_counts_of (first_orders orders))))
      by now apply in_map.
    rewrite acq_counts_keys, In_months in Hm. apply in_map_iff in Hm.
    destruct Hm as [fo [<- Hfo]].
    destruct (In_first_orders _ _ Hfo) as [_ [_ [_ [_ [-> _]]]]].
    apply strftime_canonical, valid_date_month.
    exact (first_order_date_valid orders valid_date fo Hvalid Hfo). }
  unfold build_mart_and_cohorts.
  split; [|split; [exact Hacq|split]].
  - intros o Ho. destruct (Hload o Ho) as [Hd Hm]. split; [exact Hm|].
    rewrite Hm. now apply strftime_canonical, valid_date_month.
  - intros r Hr.
    assert (Hc : In (cr_cohort_month r)
                    (map cs_cohort_month (acq_counts_of (first_orders orders)))).
    { apply revenue_cohorts_are_size_cohorts. now apply in_map. }
    apply in_map_iff in Hc. destruct Hc as [a [<- Ha]]. now apply Hacq.
  - intros row Hrow. rewrite cohort_cac_rows in Hrow. apply in_map_iff in Hrow.
    destruct Hrow as [a [<- Ha]]. cbn [cac_row cac_cohort_month]. now apply Hacq.
Qed.

Lemma month_labels_canonical_witness :
  Forall (fun o => canonical_year_month (order_month o) = true) sample_orders.
Proof.
  apply Forall_forall. intros o Ho.
  exact (proj2 (proj1 (month_labels_canonical sample_raw_orders [] eq_refl) o Ho)).
Defined.

Lemma four_digit_date_bounds (d : date) :
  four_digit_date d = true -> 1 <= month d <= 12 /\ 0 <= year d < 10000.
Proof.
  unfold four_digit_date. rewrite !andb_true_iff, Z.leb_le, Z.ltb_lt.
  intros [[Hv Hy0] Hy1]. apply valid_date_month in Hv. lia.
Qed.

Lemma four_digits_determine (y z : Z) :
  0 <= y < 10000 -> 0 <= z < 10000 ->
  (y / 1000) mod 10 = (z / 1000) mod 10 ->
  (y / 100) mod 10 = (z / 100) mod 10 ->
  (y / 10) mod 10 = (z / 10) mod 10 ->
  y mod 10 = z mod 10 ->
  y = z.
Proof.
  intros Hy Hz H3 H2 H1 H0.
  Z.to_euclidean_division_equations. lia.
Qed.

Lemma two_digits_determine (m n : Z) :
  1 <= m <= 12 -> 1 <= n <= 12 ->
  (m / 10) mod 10 = (n / 10) mod 10 -> m mod 10 = n mod 10 -> m = n.
Proof.
  intros Hm Hn H1 H0.
  Z.to_euclidean_division_equations. lia.
Qed.

(** Two dates get the same ['%Y-%m'] label exactly when they lie in the
    same month of the same year. *)
Lemma strftime_same_month (a b : date) :
  four_digit_date a = true -> four_digit_date b = true ->
  (strftime_Y_m a = strftime_Y_m b <-> year a = year b /\ month a = month b).
Proof.
  intros Ha Hb. apply four_digit_date_bounds in Ha, Hb. split.
  - unfold strftime_Y_m. intros H.
    apply string_cons_inj in H. destruct H as [H3 H].
    apply string_cons_inj in H. destruct H as [H2 H].
    apply string_cons_inj in H. destruct H as [H1 H].
    apply string_cons_inj in H. destruct H as [H0 H].
    apply string_cons_inj in H. destruct H as [_ H].
    apply string_cons_inj in H. destruct H as [M1 H].
    apply string_cons_inj in H. destruct H as [M0 _].
    apply digit_inj in H3, H2, H1, H0, M1, M0.
    split.
    + apply four_digits_determine; tauto.
    + apply two_digits_determine; tauto.
  - intros [Hy Hm]. unfold strftime_Y_m. now rewrite Hy, Hm.
Qed.

(** X12.  For order dates with a four-digit year, [load_inputs] raises
    only on an orders table without rows, and on the orders it returns
    a cohort month names one calendar month: two customers share a
    cohort month exactly when their first orders fall in the same month
    of the same year, and the [order_month] that [load_inputs] gives an
    order equals the cohort month of its customer exactly when the
    order's [months_since_cohort] is 0. *)
Theorem cohort_month_is_calendar_month
        (orders_csv : list RawOrder) (spend_csv : list RawSpend) :
  forallb (fun r => four_digit_date (ro_order_date r)) orders_csv = true ->
  match load_inputs orders_csv spend_csv with
  | Raise e => e = AttributeError /\ orders_csv = []
  | Ok (orders, _) =>
      (forall fo1 fo2,
          In fo1 (first_orders orders) -> In fo2 (first_orders orders) ->
          (fo_cohort_month fo1 = fo_cohort_month fo2 <->
           year (first_order_date fo1) = year (first_order_date fo2) /\
           month (first_order_date fo1) = month (first_order_date fo2))) /\
      (forall e, In e (fct orders (first_orders orders)) ->
                 (order_month (eo_order e) = eo_cohort_month e <->
                  months_since_cohort e = 0))
  end.
Proof.
  intros Hv.
  destruct (load_inputs orders_csv spend_csv) as [[orders spend]|e] eqn:E;
    [|now apply (load_inputs_raises orders_csv spend_csv)].
  pose proof (fun o => valid_raw_orders orders_csv spend_csv four_digit_date
                                        orders spend o Hv E) as Hord.
  assert (Hfo : forall fo, In fo (first_orders orders) ->
                           four_digit_date (first_order_date fo) = true /\
                           fo_cohort_month fo = strftime_Y_m (first_order_date fo)).
  { intros fo Hin. split.
    - apply (first_order_date_valid orders four_digit_date fo); [|exact Hin].
      intros o Ho. apply (Hord o Ho).
    - now destruct (In_first_orders _ _ Hin) as [_ [_ [_ [_ [-> _]]]]]. }
  split.
  - intros fo1 fo2 H1 H2.
    destruct (Hfo fo1 H1) as [Hd1 ->]. destruct (Hfo fo2 H2) as [Hd2 ->].
    now apply strftime_same_month.
  - intros e0 He. destruct (In_fct _ _ _ He) as [fo [Ho [Hin [_ [Hcm [_ Hm]]]]]].
    destruct (Hord _ Ho) as [Hdo Hmo]. destruct (Hfo fo Hin) as [Hdf Hcf].
    rewrite Hmo, Hcm, Hcf, (strftime_same_month _ _ Hdo Hdf), Hm.
    apply four_digit_date_bounds in Hdo, Hdf.
    unfold date_diff_month. cbn [date_trunc_month year month]. lia.
Qed.

Lemma cohort_month_is_calendar_month_witness :
  Forall (fun e => order_month (eo_order e) = eo_cohort_month e <->
                   months_since_cohort e = 0)
         (fct sample_orders (first_orders sample_orders)).
Proof.
  apply Forall_forall.
  exact (proj2 (cohort_month_is_calendar_month sample_raw_orders [] eq_refl)).
Defined.

(** ** Cohort assignments *)

(** X13.  [first_orders] has exactly one row per distinct customer of
    the orders, and the acquisition channel of a customer is the channel
    of one of that customer's own orders. *)
Theorem one_first_order_per_customer (orders : list Order) :
  NoDup (map fo_customer_id (first_orders orders)) /\
  (forall c, In c (map fo_customer_id (first_orders orders))
             <-> In c (map customer_id orders)) /\
  (forall fo, In fo (first_orders orders) ->
              exists o, In o orders /\ customer_id o = fo_customer_id fo /\
                        channel o = acquisition_channel fo).
Proof.
  split; [apply first_orders_NoDup|]. split.
  - intros c. rewrite first_orders_customers. apply In_distinct.
  - intros fo Hfo. destruct (In_first_orders _ _ Hfo) as [o [group [Hg [_ [_ Hch]]]]].
    assert (Ho : In o (filter (fun x => String.eqb (customer_id x) (fo_customer_id fo))
                              orders)) by (rewrite Hg; now left).
    apply filter_In in Ho. destruct Ho as [Ho Hid]. apply String.eqb_eq in Hid.
    exists o. auto.
Qed.

(** ** What LTV_latest measures *)

Lemma filter_all_le (cols : list Z) (top : Z) :
  (forall k, In k cols -> k <= top) -> filter (fun j => j <=? top) cols = cols.
Proof.
  intros H. apply forallb_filter_id. apply forallb_forall.
  intros k Hk. apply Z.leb_le. now apply H.
Qed.

(** X15.  For frames keyed uniquely, [ltv_tables] returns a grid, and
    in every row of a summary that lines 106 to 109 of [export_excel]
    build from it, LTV_latest is the cell of the row's cohort in the
    column of the largest offset observed in any cohort; that cell is
    the total of the cohort's whole row of the dense per-customer grid,
    the zero-filled offsets included. *)
Theorem ltv_latest_is_row_total
        (cohort_rev : list CohortRevenue) (acq_counts : list CohortSize)
        (cac_df : list CohortCAC) :
  keyed_uniquely cohort_rev acq_counts = true ->
  match ltv_pivot cohort_rev acq_counts, ltv_tables cohort_rev acq_counts with
  | Ok p, Ok g =>
      match export_excel g cac_df with
      | Raise _ => True
      | Ok summary =>
          forall s, In s summary ->
            In (s_cohort_month s) (grid_index g) /\
            loc g (s_cohort_month s) (latest_column (columns g)) = Some (LTV_latest s) /\
            LTV_latest s = fsum (map (value_at p (s_cohort_month s)) (columns g))
      end
  | _, _ => False
  end.
Proof.
  intros Hu.
  pose proof (ltv_tables_shape _ _ Hu) as Hg.
  rewrite (ltv_pivot_shape _ _ Hu), Hg.
  match type of Hg with _ = Ok ?G => set (g := G) in * end.
  destruct (export_excel g cac_df) as [summary|e] eqn:Hs; [|exact I].
  intros s Hsin.
  destruct (summary_latest g cac_df summary s Hs Hsin) as [j [r [Hj [Hr [Hc Hv]]]]].
  assert (Hcols : columns g <> []).
  { intros E. rewrite E in Hj. discriminate Hj. }
  destruct (export_excel_latest g cac_df Hcols) as [Hin [Hmax _]].
  change (columns g) with (observed_offsets cohort_rev) in *.
  assert (Hrow : exists c, In c (observed_cohorts cohort_rev) /\
                           r = (c, cumsum_row (map (dense_cell cohort_rev acq_counts c)
                                                   (observed_offsets cohort_rev)))).
  { unfold g in Hr. cbn [rows] in Hr. apply in_map_iff in Hr.
    destruct Hr as [c [<- Hcin]]. now exists c. }
  destruct Hrow as [c [Hcin ->]]. cbn [fst snd] in Hc, Hv. rewrite Hc.
  pose proof (loc_cumulative_cell cohort_rev acq_counts c _ Hcin Hin) as Hloc.
  pose proof (loc_computed (observed_offsets cohort_rev) (observed_cohorts cohort_rev)
                (fun c => cumsum_row (map (dense_cell cohort_rev acq_counts c)
                                          (observed_offsets cohort_rev)))
                c _ j Hcin Hj) as Hnth.
  cbv beta in Hnth. rewrite Hloc in Hnth. symmetry in Hnth.
  apply (nth_error_nth _ _ NaN) in Hnth. rewrite Hnth in Hv.
  rewrite (filter_all_le _ _ Hmax) in Hv, Hloc.
  split; [|split].
  - unfold grid_index, g. cbn [rows]. rewrite map_map. cbn [fst]. now rewrite map_id.
  - unfold g. rewrite Hloc. now rewrite Hv.
  - rewrite Hv. f_equal. apply map_ext_in. intros k Hk. unfold value_at.
    now rewrite (loc_pivot_cell _ acq_counts _ _ Hcin Hk).
Qed.

Lemma ltv_latest_is_row_total_witness :
  match ltv_pivot test_cohort_rev test_acq, ltv_tables test_cohort_rev test_acq with
  | Ok p, Ok g =>
      match export_excel g (cohort_cac sample_acq sample_spend) with
      | Raise _ => True
      | Ok summary =>
          forall s, In s summary ->
            In (s_cohort_month s) (grid_index g) /\
            loc g (s_cohort_month s) (latest_column (columns g)) = Some (LTV_latest s) /\
            LTV_latest s = fsum (map (value_at p (s_cohort_month s)) (columns g))
      end
  | _, _ => False
  end.
Proof.
  exact (ltv_latest_is_row_total test_cohort_rev test_acq
                                 (cohort_cac sample_acq sample_spend) eq_refl).
Defined.
